(** * The PWA listing endpoint ([controllers/api/pwa.js])

    A shallow embedding of the Express route [GET /api/pwa/:id?] and of
    the three writers it dispatches to (CSV, JSON, RSS), followed by the
    properties of the endpoint that are established on it.

    JavaScript values are kept as the code has them: a query-string
    value is a string or [undefined], the result of [parseInt] is a
    number or [NaN], an object literal is a finite map from property
    names to values, a promise is settled at most once.  The record
    store ([lib/pwa]), the template engine behind [res.render], the
    request metadata ([lib/metadata]) and the XML serialiser of the
    [rss] package are collaborators of the route; they are the
    variables of the section that holds the route. *)

From stdpp Require Import gmap strings list.
From Stdlib Require Import ZArith Ascii String Lia DecimalString DecimalZ DecimalPos.

#[local] Set Warnings "-register-all".
#[local] Open Scope string_scope.
#[local] Open Scope list_scope.
#[local] Open Scope Z_scope.

(* ================================================================== *)
(** * JavaScript values                                                *)
(* ================================================================== *)

(** The values that flow through the route.  [JError] stands for an
    [Error] object (its name and message); [JObj] is an object literal,
    keyed by property name. *)
Inductive JsVal :=
| JUndefined
| JNull
| JBool (b : bool)
| JNum (z : Z)
| JStr (s : string)
| JError (name msg : string)
| JArr (l : list JsVal)
| JObj (o : gmap string JsVal).

(** The outcome of evaluating a piece of synchronous code. *)
Inductive Completion (A : Type) :=
| Normal (a : A)
| Throw (e : JsVal).
Arguments Normal {A} a.
Arguments Throw {A} e.

Definition cbind {A B} (c : Completion A) (k : A → Completion B) : Completion B :=
  match c with
  | Normal a => k a
  | Throw e => Throw e
  end.

(** [pwas.forEach(f)] where [f] may throw: the first exception leaves
    the loop. *)
Fixpoint cmapM {A B} (f : A → Completion B) (l : list A) : Completion (list B) :=
  match l with
  | [] => Normal []
  | x :: r => cbind (f x) (λ y, cbind (cmapM f r) (λ ys, Normal (y :: ys)))
  end.

(** A number as [parseInt] returns it: [NaN], a finite integer that a
    double holds ([Num 0] is the positive zero), the negative zero, or
    an infinity. *)
Inductive JsNum :=
| NaN
| Num (z : Z)
| NegZero
| Infinity (negative : bool).

(* ================================================================== *)
(** * Strings and numerals                                             *)
(* ================================================================== *)

Definition is_digit (c : ascii) : bool :=
  let n := nat_of_ascii c in (48 <=? n)%nat && (n <=? 57)%nat.

Definition digit_val (c : ascii) : Z := Z.of_nat (nat_of_ascii c) - 48.

Definition digit_char (d : Z) : ascii := ascii_of_nat (48 + Z.to_nat d).

(** A string holds the UTF-8 encoding of the JavaScript string.  The
    one-byte members of [StrWhiteSpaceChar] are TAB, LF, VT, FF, CR and
    SP. *)
Definition is_white (c : ascii) : bool :=
  let n := nat_of_ascii c in
  ((9 <=? n)%nat && (n <=? 13)%nat) || (n =? 32)%nat.

(** The members of [StrWhiteSpaceChar] that take three bytes: U+1680,
    U+2000 to U+200A, U+2028, U+2029, U+202F, U+205F, U+3000 and
    U+FEFF. *)
Definition is_white3 (a b c : ascii) : bool :=
  let '(x, y, z) := (nat_of_ascii a, nat_of_ascii b, nat_of_ascii c) in
  if (x =? 225)%nat then (y =? 154)%nat && (z =? 128)%nat
  else if (x =? 226)%nat then
    ((y =? 128)%nat
       && (((128 <=? z)%nat && (z <=? 138)%nat)
           || (z =? 168)%nat || (z =? 169)%nat || (z =? 175)%nat))
    || ((y =? 129)%nat && (z =? 159)%nat)
  else if (x =? 227)%nat then (y =? 128)%nat && (z =? 128)%nat
  else if (x =? 239)%nat then (y =? 187)%nat && (z =? 191)%nat
  else false.

(** The text after one white-space character, if the text starts with
    one; the character of two bytes is U+00A0. *)
Definition skip_white (s : string) : option string :=
  match s with
  | String a r =>
      if is_white a then Some r
      else
        match r with
        | String b r2 =>
            if (nat_of_ascii a =? 194)%nat && (nat_of_ascii b =? 160)%nat
            then Some r2
            else
              match r2 with
              | String c r3 => if is_white3 a b c then Some r3 else None
              | EmptyString => None
              end
        | EmptyString => None
        end
  | EmptyString => None
  end.

Fixpoint trim_fuel (fuel : nat) (s : string) : string :=
  match fuel with
  | O => s
  | S fuel' =>
      match skip_white s with
      | Some r => trim_fuel fuel' r
      | None => s
      end
  end.

(** The text without its leading white space: every step removes at
    least one byte, so the length of the text is fuel enough. *)
Definition trim_start (s : string) : string := trim_fuel (String.length s) s.

(** The Number value of a positive integer: the nearest double, ties to
    the even mantissa; [None] stands for infinity, which is what an
    integer of 2^1024 - 2^970 or more rounds to. *)
Definition nearest_double (m : Z) : option Z :=
  if m <? 2 ^ 53 then Some m
  else
    let e := Z.log2 m - 52 in
    let q := m / 2 ^ e in
    let r := m mod 2 ^ e in
    let half := 2 ^ (e - 1) in
    let q := if (half <? r) || ((r =? half) && Z.odd q) then q + 1 else q in
    let v := q * 2 ^ e in
    if 2 ^ 1024 <=? v then None else Some v.

(** The Number value of an integer with its sign.  (The language lets
    an implementation approximate a numeral of more than twenty digits;
    the value taken here is the correctly rounded one.) *)
Definition to_Number (negative : bool) (mathInt : Z) : JsNum :=
  if mathInt =? 0 then (if negative then NegZero else Num 0)
  else
    match nearest_double mathInt with
    | Some v => Num (if negative then - v else v)
    | None => Infinity negative
    end.

(** The longest prefix of decimal digits, read as an integer; [None]
    when the text does not start with a digit.  [acc] is the value read
    so far and [seen] tells whether a digit was read. *)
Fixpoint read_digits (s : string) (acc : Z) (seen : bool) : option Z :=
  match s with
  | String c r =>
      if is_digit c then read_digits r (10 * acc + digit_val c) true
      else if seen then Some acc else None
  | EmptyString => if seen then Some acc else None
  end.

(** [parseInt(string, 10)]: leading white space is skipped, one sign is
    accepted, then the longest run of decimal digits is read; anything
    after it is ignored, and no digit at all gives [NaN].  The result
    is the Number value of the integer read. *)
Definition parseInt (inputString : string) : JsNum :=
  let trimmed := trim_start inputString in
  let '(negative, body) :=
    match trimmed with
    | String c r =>
        if Ascii.eqb c "-" then (true, r)
        else if Ascii.eqb c "+" then (false, r)
        else (false, trimmed)
    | EmptyString => (false, trimmed)
    end in
  match read_digits body 0 false with
  | Some mathInt => to_Number negative mathInt
  | None => NaN
  end.

(** [ToString] of a query-string value: a missing one is [undefined]. *)
Definition ToString (v : option string) : string :=
  match v with
  | Some s => s
  | None => "undefined"
  end.

(** [n || d] on numbers: [NaN] and the two zeros are falsy. *)
Definition num_or (n d : JsNum) : JsNum :=
  match n with
  | NaN => d
  | Num 0 => d
  | NegZero => d
  | _ => n
  end.

(** [s || d] on a query-string value: [undefined] and the empty string
    are falsy. *)
Definition str_or (v : option string) (d : string) : string :=
  match v with
  | Some EmptyString => d
  | Some s => s
  | None => d
  end.

(** Decimal text of an integer, as [Number::toString] prints it. *)
Definition Z_to_string (z : Z) : string :=
  NilZero.string_of_int (Z.to_int z).

(** [w] decimal digits of [n], most significant first. *)
Fixpoint fixed_digits (w : nat) (n : Z) : string :=
  match w with
  | O => EmptyString
  | S w' => fixed_digits w' (n / 10) +:+ String (digit_char (n mod 10)) EmptyString
  end.

(** [s.split(sep)] for a separator of one character. *)
Fixpoint split (sep : ascii) (s : string) : list string :=
  match s with
  | EmptyString => [EmptyString]
  | String c r =>
      if Ascii.eqb c sep then EmptyString :: split sep r
      else match split sep r with
           | h :: t => String c h :: t
           | [] => [String c EmptyString]
           end
  end.

(* ================================================================== *)
(** * Dates                                                            *)
(* ================================================================== *)

(** The date arithmetic of ECMAScript on time values, which are
    milliseconds since 1970-01-01T00:00:00Z. *)
Module JsDate.

Definition msPerDay : Z := 86400000.
Definition msPerHour : Z := 3600000.
Definition msPerMinute : Z := 60000.
Definition msPerSecond : Z := 1000.

Definition Day (t : Z) : Z := t / msPerDay.
Definition TimeWithinDay (t : Z) : Z := t mod msPerDay.

Definition DaysInYear (y : Z) : Z :=
  if negb (y mod 4 =? 0) then 365
  else if negb (y mod 100 =? 0) then 366
  else if negb (y mod 400 =? 0) then 365
  else 366.

Definition DayFromYear (y : Z) : Z :=
  365 * (y - 1970) + (y - 1969) / 4 - (y - 1901) / 100 + (y - 1601) / 400.

Definition TimeFromYear (y : Z) : Z := msPerDay * DayFromYear y.

(** The largest year whose first day is not after [t]: a first guess
    from the mean length of a year, moved by one where it is off. *)
Definition YearFromTime (t : Z) : Z :=
  let d := Day t in
  let y := 1970 + (400 * d) / 146097 in
  if DayFromYear (y + 1) <=? d then y + 1
  else if d <? DayFromYear y then y - 1
  else y.

Definition InLeapYear (t : Z) : Z :=
  if DaysInYear (YearFromTime t) =? 366 then 1 else 0.

Definition DayWithinYear (t : Z) : Z := Day t - DayFromYear (YearFromTime t).

Definition MonthFromTime (t : Z) : Z :=
  let d := DayWithinYear t in
  let leap := InLeapYear t in
  if d <? 31 then 0
  else if d <? 59 + leap then 1
  else if d <? 90 + leap then 2
  else if d <? 120 + leap then 3
  else if d <? 151 + leap then 4
  else if d <? 181 + leap then 5
  else if d <? 212 + leap then 6
  else if d <? 243 + leap then 7
  else if d <? 273 + leap then 8
  else if d <? 304 + leap then 9
  else if d <? 334 + leap then 10
  else 11.

Definition DateFromTime (t : Z) : Z :=
  let d := DayWithinYear t in
  let leap := InLeapYear t in
  match MonthFromTime t with
  | 0 => d + 1
  | 1 => d - 30
  | 2 => d - 58 - leap
  | 3 => d - 89 - leap
  | 4 => d - 119 - leap
  | 5 => d - 150 - leap
  | 6 => d - 180 - leap
  | 7 => d - 211 - leap
  | 8 => d - 242 - leap
  | 9 => d - 272 - leap
  | 10 => d - 303 - leap
  | _ => d - 333 - leap
  end.

Definition HourFromTime (t : Z) : Z := (t / msPerHour) mod 24.
Definition MinFromTime (t : Z) : Z := (t / msPerMinute) mod 60.
Definition SecFromTime (t : Z) : Z := (t / msPerSecond) mod 60.
Definition msFromTime (t : Z) : Z := t mod msPerSecond.

(** [TimeClip]: a time value further than 8.64e15 ms from the epoch is
    not a date; [new Date(v)] then holds [NaN], written [None]. *)
Definition TimeClip (t : Z) : option Z :=
  if Z.abs t <=? 8640000000000000 then Some t else None.

(** The year of an ISO timestamp: four digits from 0000 to 9999, a
    sign and six digits outside. *)
Definition year_string (y : Z) : string :=
  if (0 <=? y) && (y <=? 9999) then fixed_digits 4 y
  else (if y <? 0 then "-" else "+") +:+ fixed_digits 6 (Z.abs y).

Definition date_string (t : Z) : string :=
  year_string (YearFromTime t) +:+ "-" +:+ fixed_digits 2 (MonthFromTime t + 1)
    +:+ "-" +:+ fixed_digits 2 (DateFromTime t).

Definition time_string (t : Z) : string :=
  fixed_digits 2 (HourFromTime t) +:+ ":" +:+ fixed_digits 2 (MinFromTime t)
    +:+ ":" +:+ fixed_digits 2 (SecFromTime t) +:+ "." +:+ fixed_digits 3 (msFromTime t)
    +:+ "Z".

(** [Date.prototype.toISOString]: a [RangeError] on an invalid date. *)
Definition toISOString (d : option Z) : Completion string :=
  match d with
  | Some t => Normal (date_string t +:+ "T" +:+ time_string t)
  | None => Throw (JError "RangeError" "Invalid time value")
  end.

End JsDate.

(** [getDate(date)]:
    [new Date(date).toISOString().split('T')[0]].  The array that
    [split] returns is never empty, so element 0 is there. *)
Definition getDate (date : Z) : Completion string :=
  cbind (JsDate.toISOString (JsDate.TimeClip date)) (λ iso,
    match split "T" iso with
    | s0 :: _ => Normal s0
    | [] => Throw (JError "TypeError" "no first part")
    end).

(* ================================================================== *)
(** * Records, requests and the response                               *)
(* ================================================================== *)

(** A stored record.  [created] and [updated] are the time values of
    the stored timestamps; the three quality metrics are opaque. *)
Record Pwa := {
  id : string;
  displayName : string;
  name : string;
  description : string;
  absoluteStartUrl : string;
  manifestUrl : string;
  iconUrl128 : string;
  lighthouseScore : JsVal;
  webPageTest : JsVal;
  pageSpeed : JsVal;
  created : Z;
  updated : Z
}.

(** What [pwaLib.list] resolves to: the route reads [result.pwas]. *)
Record ListResult := { pwas : list Pwa }.

(** [req.query]: every value is a string or missing. *)
Record Query := {
  q_format : option string;
  q_sort : option string;
  q_skip : option string;
  q_limit : option string;
  q_contentOnly : option string
}.

Record Request := {
  params_id : option string;
  query : Query;
  originalUrl : string
}.

(** The body handed to one of the terminal methods of [res]. *)
Inductive Body :=
| body_json (v : JsVal)
| body_csv (rows : list (list JsVal))
| body_send (text : string).

Inductive Format := FmtCsv | FmtRss | FmtJson.

(** What happens during a request, in the order it happens: the calls
    to the record store with their arguments, the writer entered, the
    start and the completion of each template render (numbered in call
    order, with the logical time) and the lines of [console.log]. *)
Inductive Event :=
| EvFind (key : string)
| EvList (skip limit : JsNum) (sort : string)
| EvWrite (f : Format)
| EvRenderBegin (n : nat) (p : Pwa) (t : nat)
| EvRenderEnd (n : nat) (t : nat)
| EvLog (v : JsVal).

(** The options of [feed.item]. *)
Record Item := {
  title : string;
  url : string;
  item_description : JsVal;
  guid : string;
  date : Z;
  custom_elements : JsVal
}.

(** The options of [new RSS] and the items added since. *)
Record Feed := {
  feed_title : string;
  feed_description : string;
  feed_url : string;
  site_url : string;
  image_url : string;
  pubDate : Z;
  custom_namespaces : gmap string string;
  feed_items : list Item
}.

(** The options of the template [pwas/view-rss.hbs]: the metadata of
    the request, overridden by the five properties that
    [renderOnePwaRss] assigns. *)
Record RenderArg := {
  arg_metadata : gmap string JsVal;
  arg_pwa : Pwa;
  arg_title : string;
  arg_description : string;
  arg_backlink : bool;
  arg_contentOnly : option string
}.

(** A response as it leaves the server: the status and the headers in
    force when a terminal method of [res] is called, and the body. *)
Record Sent := {
  sent_status : Z;
  sent_headers : gmap string string;
  sent_body : Body
}.

(** The response under construction together with the observations of
    the request: [sent] lists the terminal writes, each with the status
    it went out with, [added] the calls of [feed.item] on the feed
    being built, each with the time of the call, [now] the logical time
    and [rendered] the number of renders begun.

    The state is threaded through the code in the order of the program
    text.  Code that waits for what it has started runs in the order of
    time as well; code that does not is told apart by the times written
    down with the events and with the items. *)
Record State := {
  headers : gmap string string;
  statusCode : Z;
  sent : list Sent;
  added : list (nat * Item);
  now : nat;
  rendered : nat;
  trace : list Event
}.

(** The items given to the feed, in the order of the program text. *)
Definition items (s : State) : list Item := (added s).*2.

Definition initial : State :=
  {| headers := ∅; statusCode := 200; sent := []; added := [];
     now := 0%nat; rendered := 0%nat; trace := [] |}.

Definition setHeader (k v : string) (s : State) : State :=
  {| headers := <[k := v]> (headers s); statusCode := statusCode s;
     sent := sent s; added := added s;
     now := now s; rendered := rendered s; trace := trace s |}.

Definition status (code : Z) (s : State) : State :=
  {| headers := headers s; statusCode := code;
     sent := sent s; added := added s;
     now := now s; rendered := rendered s; trace := trace s |}.

Definition write_body (b : Body) (s : State) : State :=
  {| headers := headers s; statusCode := statusCode s;
     sent := sent s ++ [{| sent_status := statusCode s;
                           sent_headers := headers s;
                           sent_body := b |}];
     added := added s;
     now := now s; rendered := rendered s; trace := trace s |}.

Definition res_json (v : JsVal) : State → State := write_body (body_json v).
Definition res_csv (rows : list (list JsVal)) : State → State := write_body (body_csv rows).
Definition res_send (text : string) : State → State := write_body (body_send text).

Definition record (e : Event) (s : State) : State :=
  {| headers := headers s; statusCode := statusCode s; sent := sent s;
     added := added s;
     now := now s; rendered := rendered s; trace := trace s ++ [e] |}.

(** [new RSS(options)]: a feed without items. *)
Definition new_RSS (s : State) : State :=
  {| headers := headers s; statusCode := statusCode s; sent := sent s;
     added := [];
     now := now s; rendered := rendered s; trace := trace s |}.

(** [feed.item(options)], called at time [now s]. *)
Definition feed_item (it : Item) (s : State) : State :=
  {| headers := headers s; statusCode := statusCode s; sent := sent s;
     added := added s ++ [(now s, it)];
     now := now s; rendered := rendered s; trace := trace s |}.

(** A render is handed to the template engine at time [now s]. *)
Definition render_begins (p : Pwa) (s : State) : State :=
  {| headers := headers s; statusCode := statusCode s; sent := sent s;
     added := added s;
     now := now s; rendered := S (rendered s);
     trace := trace s ++ [EvRenderBegin (rendered s) p (now s)] |}.

(** The engine calls back [latency] ticks after [now s]; [n] is the
    number the render was given when it began.  The event is written
    down with its time; the clock of the caller is not moved. *)
Definition render_ends (n : nat) (latency : nat) (s : State) : State :=
  {| headers := headers s; statusCode := statusCode s; sent := sent s;
     added := added s;
     now := now s; rendered := rendered s;
     trace := trace s ++ [EvRenderEnd n (now s + latency)%nat] |}.

(** The same state, at the time [t]. *)
Definition at_time (t : nat) (s : State) : State :=
  {| headers := headers s; statusCode := statusCode s; sent := sent s;
     added := added s;
     now := t; rendered := rendered s; trace := trace s |}.

Definition console_log (v : JsVal) : State → State := record (EvLog v).

(** The items that the feed object holds at time [t]: those added by
    then, in the order of the calls of [feed.item] in time, which for
    calls at the same time is their order in the program. *)
Fixpoint insert_by_time (x : nat * Item) (l : list (nat * Item)) : list (nat * Item) :=
  match l with
  | [] => [x]
  | y :: l' => if (x.1 <=? y.1)%nat then x :: l else y :: insert_by_time x l'
  end.

Fixpoint sort_by_time (l : list (nat * Item)) : list (nat * Item) :=
  match l with
  | [] => []
  | x :: l' => insert_by_time x (sort_by_time l')
  end.

Definition items_at (t : nat) (l : list (nat * Item)) : list Item :=
  (sort_by_time (filter (λ x, x.1 ≤ t)%nat l)).*2.

(** [if (v)]. *)
Definition truthy (v : JsVal) : bool :=
  match v with
  | JUndefined | JNull | JBool false | JNum 0 | JStr EmptyString => false
  | _ => true
  end.

(* ================================================================== *)
(** * The CSV and JSON writers                                         *)
(* ================================================================== *)

Definition csv_header : list JsVal :=
  [JStr "id"; JStr "absoluteStartUrl"; JStr "manifestUrl";
   JStr "lighthouseScore"; JStr "created"; JStr "updated"].

(** The body of the [forEach] callback of [CsvWriter.write]. *)
Definition csvLine (pwa : Pwa) : Completion (list JsVal) :=
  cbind (getDate (created pwa)) (λ created,
  cbind (getDate (updated pwa)) (λ updated,
  Normal [JStr (id pwa); JStr (absoluteStartUrl pwa); JStr (manifestUrl pwa);
          lighthouseScore pwa; JStr created; JStr updated])).

Definition CsvWriter_write (pwas : list Pwa) (s : State) : State * Completion unit :=
  let s := record (EvWrite FmtCsv) s in
  match cmapM csvLine pwas with
  | Normal csv =>
      let s := setHeader "Content-Type" "text/csv" s in
      (res_csv (csv_header :: csv) s, Normal tt)
  | Throw e => (s, Throw e)
  end.

(** The body of the [forEach] callback of [JsonWriter.write]: the
    object is built by eight assignments to an empty literal. *)
Definition jsonPwa (dbPwa : Pwa) : Completion (gmap string JsVal) :=
  cbind (getDate (created dbPwa)) (λ created,
  cbind (getDate (updated dbPwa)) (λ updated,
  let pwa : gmap string JsVal := ∅ in
  let pwa := <["id" := JStr (id dbPwa)]> pwa in
  let pwa := <["absoluteStartUrl" := JStr (absoluteStartUrl dbPwa)]> pwa in
  let pwa := <["manifestUrl" := JStr (manifestUrl dbPwa)]> pwa in
  let pwa := <["lighthouseScore" := lighthouseScore dbPwa]> pwa in
  let pwa := <["webPageTest" := webPageTest dbPwa]> pwa in
  let pwa := <["pageSpeed" := pageSpeed dbPwa]> pwa in
  let pwa := <["created" := JStr created]> pwa in
  let pwa := <["updated" := JStr updated]> pwa in
  Normal pwa)).

Definition JsonWriter_write (pwas : list Pwa) (s : State) : State * Completion unit :=
  let s := record (EvWrite FmtJson) s in
  match cmapM jsonPwa pwas with
  | Normal pwaList =>
      let s := setHeader "Content-Type" "application/json" s in
      (res_json (JArr (JObj <$> pwaList)) s, Normal tt)
  | Throw e => (s, Throw e)
  end.

(* ================================================================== *)
(** * Promises                                                         *)
(* ================================================================== *)

(** A promise of the record store, which settles one way or the
    other. *)
Inductive Outcome (A : Type) :=
| Resolves (a : A)
| Rejects (e : JsVal).
Arguments Resolves {A} a.
Arguments Rejects {A} e.

(** The state of a promise of the route when the request has come to
    rest. *)
Inductive Settled (A : Type) :=
| Fulfilled (a : A)
| Rejected (e : JsVal)
| Pending.
Arguments Fulfilled {A} a.
Arguments Rejected {A} e.
Arguments Pending {A}.

(** [resolve] and [reject] act on a pending promise only. *)
Definition settle {A} (p new : Settled A) : Settled A :=
  match p with
  | Pending => new
  | _ => p
  end.

Definition adopt {A} (o : Outcome A) : Settled A :=
  match o with
  | Resolves a => Fulfilled a
  | Rejects e => Rejected e
  end.

(** A promise as it is once the request has come to rest: how it has
    settled and the time at which it did. *)
Record Promise (A : Type) := {
  due : nat;
  outcome : Settled A
}.
Arguments due {A} p.
Arguments outcome {A} p.

(** A call that returns a promise.  What the call sets in motion is
    written into the state at once, every event with the time it
    happens at, but the clock of the state that the call returns is the
    clock of the caller: a call does not wait for its promise. *)
Definition Async (A : Type) : Type := State → State * Promise A.

(** The body of an [async] function, run from the call to its end: the
    clock of the state it returns is the time at which the body ends. *)
Definition Fn (A : Type) : Type := State → State * Settled A.

Definition body_ret {A} (a : A) : Fn A := λ s, (s, Fulfilled a).

(** A call of an [async] function: the caller gets a promise, which
    settles when the body ends, and goes on at its own time. *)
Definition async {A} (body : Fn A) : Async A :=
  λ s, let '(s', r) := body s in
       (at_time (now s) s', {| due := now s'; outcome := r |}).

(** [await m] followed by [k] inside an [async] function: the body
    waits, so its clock moves to the time at which the promise of [m]
    settles; a rejection of [m] rejects the function's promise, and
    nothing after a promise that stays pending runs. *)
Definition await {A B} (m : Async A) (k : A → Fn B) : Fn B :=
  λ s, let '(s', p) := m s in
       let s'' := at_time (Nat.max (now s') (due p)) s' in
       match outcome p with
       | Fulfilled a => k a s''
       | Rejected e => (s'', Rejected e)
       | Pending => (s', Pending)
       end.

(** [p.then(f)]: [f] runs on fulfilment, at the time of the fulfilment,
    and an exception it throws rejects the derived promise. *)
Definition then_ {A B} (p : Async A) (f : A → State → State * Completion B) : Async B :=
  λ s, let '(s', pr) := p s in
       let t := Nat.max (now s') (due pr) in
       match outcome pr with
       | Fulfilled a =>
           match f a (at_time t s') with
           | (s'', Normal b) =>
               (at_time (now s') s'', {| due := t; outcome := Fulfilled b |})
           | (s'', Throw e) =>
               (at_time (now s') s'', {| due := t; outcome := Rejected e |})
           end
       | Rejected e => (s', {| due := due pr; outcome := Rejected e |})
       | Pending => (s', {| due := due pr; outcome := Pending |})
       end.

(** [p.catch(f)]: [f] runs on rejection, at the time of the
    rejection. *)
Definition catch_ {A} (p : Async A) (f : JsVal → State → State * Completion A) : Async A :=
  λ s, let '(s', pr) := p s in
       let t := Nat.max (now s') (due pr) in
       match outcome pr with
       | Rejected e =>
           match f e (at_time t s') with
           | (s'', Normal b) =>
               (at_time (now s') s'', {| due := t; outcome := Fulfilled b |})
           | (s'', Throw e') =>
               (at_time (now s') s'', {| due := t; outcome := Rejected e' |})
           end
       | _ => (s', pr)
       end.

(** A call whose promise is dropped: what it sets in motion happens,
    how it settles is seen by no one. *)
Definition detached {A} (m : Async A) (s : State) : State * Completion unit :=
  (fst (m s), Normal tt).

Notation "'let/await' x ':=' m 'in' k" := (await m (λ x, k))
  (at level 10, x pattern, m at level 100, k at level 200, only parsing).

(** The [for] loop of [asyncForEach]: each call of the callback is
    awaited before the loop goes to the next index. *)
Fixpoint for_loop {A} (array : list A) (callback : A → Async unit) : Fn unit :=
  match array with
  | [] => body_ret tt
  | x :: rest => let/await _ := callback x in for_loop rest callback
  end.

(** [asyncForEach(array, callback)], an [async] function. *)
Definition asyncForEach {A} (array : list A) (callback : A → Async unit) : Async unit :=
  async (for_loop array callback).

(* ================================================================== *)
(** * The RSS writer and the route                                     *)
(* ================================================================== *)

Definition CACHE_CONTROL_EXPIRES : Z := 60 * 60 * 1.

Section Route.

(** [pwaLib.find] and [pwaLib.list]. *)
Variable find : string → Outcome Pwa.
Variable list_pwas : JsNum → JsNum → string → Outcome ListResult.

(** [libMetadata.fromRequest]. *)
Variable fromRequest : Request → string → gmap string JsVal.

(** The template engine behind [res.render]: from the time of the
    call, the view and its options, the time the render takes and the
    two arguments [(err, html)] of the callback. *)
Variable view_engine : nat → string → RenderArg → nat * (JsVal * JsVal).

(** [new Date()] and [feed.xml()]. *)
Variable today : Z.
Variable xml : Feed → string.

(** [render(res, view, options)] returns its promise at once; the
    callback of [res.render] settles it when the engine is done. *)
Definition render (view : string) (options : RenderArg) : Async JsVal :=
  λ s,
    let '(latency, (err, html)) := view_engine (now s) view options in
    let n := rendered s in
    let s := render_begins (arg_pwa options) s in
    let s := render_ends n latency s in
    let p : Settled JsVal := Pending in
    let '(s, p) :=
      if truthy err then (console_log err s, settle p (Rejected err))
      else (s, p) in
    (s, {| due := (now s + latency)%nat; outcome := settle p (Fulfilled html) |}).

Definition renderOnePwaRss (pwa : Pwa) (req : Request) : Async JsVal :=
  let url := originalUrl req in
  let contentOnly := q_contentOnly (query req) in
  let arg :=
    {| arg_metadata := fromRequest req url;
       arg_pwa := pwa;
       arg_title := "PWA Directory: " +:+ name pwa;
       arg_description :=
         "PWA Directory: " +:+ name pwa +:+ " - " +:+ description pwa;
       arg_backlink := true;
       arg_contentOnly := contentOnly |} in
  render "pwas/view-rss.hbs" arg.

Definition new_feed (its : list Item) : Feed :=
  {| feed_title := "PWA Directory";
     feed_description := "A Directory of Progressive Web Apps";
     feed_url := "https://pwa-directory.appspot.com/api/pwa?format=rss";
     site_url := "https://pwa-directory.appspot.com/";
     image_url :=
       "https://pwa-directory.appspot.com/favicons/android-chrome-144x144.png";
     pubDate := today;
     custom_namespaces :=
       {[ "rdf" := "http://www.w3.org/1999/02/22-rdf-syntax-ns#";
          "l" := "http://purl.org/rss/1.0/modules/link/";
          "media" := "http://search.yahoo.com/mrss/" ]};
     feed_items := its |}.

Definition attr (o : gmap string JsVal) : JsVal := JObj {[ "_attr" := JObj o ]}.

Definition rss_item (pwa : Pwa) (html : JsVal) : Item :=
  {| title := displayName pwa;
     url := "https://pwa-directory.appspot.com/pwas/" +:+ id pwa;
     item_description := html;
     guid := id pwa;
     date := created pwa;
     custom_elements :=
       JArr [
         JObj {[ "media:thumbnail" :=
                   attr {[ "url" := JStr (iconUrl128 pwa);
                           "height" := JStr "128";
                           "width" := JStr "128" ]} ]};
         JObj {[ "l:link" :=
                   attr {[ "l:rel" :=
                             JStr "http://purl.org/rss/1.0/modules/link/#alternate";
                           "l:type" := JStr "application/json";
                           "rdf:resource" :=
                             JStr ("https://pwa-directory.appspot.com/api/pwa/"
                                     +:+ id pwa) ]} ]} ] |}.

(** The callback that [start] gives to [asyncForEach]. *)
Definition add_item (req : Request) (pwa : Pwa) : Async unit :=
  async (let/await html := renderOnePwaRss pwa req in
         λ s, (feed_item (rss_item pwa html) s, Fulfilled tt)).

(** The function [start] of [RssWriter.write]. *)
Definition start (req : Request) (pwas : list Pwa) : Async unit :=
  async (let/await _ := asyncForEach pwas (add_item req) in
         λ s,
           let s := setHeader "Content-Type" "application/rss+xml" s in
           (res_send (xml (new_feed (items_at (now s) (added s)))) (status 200 s),
            Fulfilled tt)).

(** [RssWriter.write] calls [start()] and returns. *)
Definition RssWriter_write (req : Request) (pwas : list Pwa) (s : State)
  : State * Completion unit :=
  let s := record (EvWrite FmtRss) s in
  let s := new_RSS s in
  detached (start req pwas) s.

(** The [switch] on the format. *)
Definition dispatch (format : string) : Format :=
  if String.eqb format "csv" then FmtCsv
  else if String.eqb format "rss" then FmtRss
  else FmtJson.

Definition write_result (req : Request) (format : string) (result : ListResult)
  (s : State) : State * Completion unit :=
  match dispatch format with
  | FmtCsv => CsvWriter_write (pwas result) s
  | FmtRss => RssWriter_write req (pwas result) s
  | FmtJson => JsonWriter_write (pwas result) s
  end.

(** [req.params.id] as a condition: a missing or empty segment is
    falsy. *)
Definition single (req : Request) : option string :=
  match params_id req with
  | Some EmptyString => None
  | other => other
  end.

Definition parse_skip (req : Request) : JsNum :=
  parseInt (ToString (q_skip (query req))).

Definition parse_limit (req : Request) : JsNum :=
  num_or (parseInt (ToString (q_limit (query req)))) (Num 100).

(** The executor of the promise that the route creates.  In the
    single-record branch a failed lookup is answered on the spot and
    neither [resolve] nor [reject] is called. *)
Definition lookup (req : Request) (skip limit : JsNum) (sort : string)
  : Async ListResult :=
  λ s,
    match single req with
    | Some key =>
        let s := record (EvFind key) s in
        match find key with
        | Resolves onePwa =>
            (s, {| due := now s;
                   outcome := settle Pending (Fulfilled {| pwas := [onePwa] |}) |})
        | Rejects err =>
            let s := console_log err s in
            let s := status 404 s in
            (res_json err s, {| due := now s; outcome := Pending |})
        end
    | None =>
        let s := record (EvList skip limit sort) s in
        (s, {| due := now s;
               outcome := settle Pending (adopt (list_pwas skip limit sort)) |})
    end.

Definition on_error (err : JsVal) (s : State) : State * Completion unit :=
  let s := console_log err s in
  let s := status 500 s in
  (res_json err s, Normal tt).

(** [router.get('/:id*?', ...)]. *)
Definition get (req : Request) : Async unit :=
  let format := str_or (q_format (query req)) "json" in
  let sort := str_or (q_sort (query req)) "newest" in
  let skip := parse_skip req in
  let limit := parse_limit req in
  λ s,
    let s :=
      setHeader "Cache-Control"
        ("public, max-age=" +:+ Z_to_string CACHE_CONTROL_EXPIRES) s in
    catch_ (then_ (lookup req skip limit sort) (write_result req format)) on_error s.

(** The state in which a request comes to rest. *)
Definition respond (req : Request) : State := fst (get req initial).

End Route.

(* ================================================================== *)
(** * The vocabulary of the properties                                 *)
(* ================================================================== *)

(** A timestamp that [Date] can hold. *)
Definition valid_date (t : Z) : Prop := Z.abs t <= 8640000000000000.

Definition valid_dates (p : Pwa) : Prop :=
  valid_date (created p) ∧ valid_date (updated p).

(** The timestamps from 0000-01-01T00:00:00.000Z up to
    9999-12-31T23:59:59.999Z, whose year is written with four digits. *)
Definition four_digit_year (t : Z) : Prop :=
  -62167219200000 <= t < 253402300800000.

(** The characters of the date part of an ISO timestamp. *)
Definition date_char (c : ascii) : bool :=
  is_digit c || Ascii.eqb c "-" || Ascii.eqb c "+".

Fixpoint string_forall (P : ascii → bool) (s : string) : bool :=
  match s with
  | EmptyString => true
  | String c r => P c && string_forall P r
  end.

(** The layout YYYY-MM-DD: ten characters, digits around two hyphens. *)
Definition is_ymd (s : string) : bool :=
  match list_ascii_of_string s with
  | [y1; y2; y3; y4; h1; m1; m2; h2; d1; d2] =>
      forallb is_digit [y1; y2; y3; y4; m1; m2; d1; d2]
        && Ascii.eqb h1 "-" && Ascii.eqb h2 "-"
  | _ => false
  end.

(** The layout of a date with an expanded year: thirteen characters, a
    sign and six digits for the year, then as above. *)
Definition is_expanded_ymd (s : string) : bool :=
  match list_ascii_of_string s with
  | [sg; y1; y2; y3; y4; y5; y6; h1; m1; m2; h2; d1; d2] =>
      (Ascii.eqb sg "+" || Ascii.eqb sg "-")
        && forallb is_digit [y1; y2; y3; y4; y5; y6; m1; m2; d1; d2]
        && Ascii.eqb h1 "-" && Ascii.eqb h2 "-"
  | _ => false
  end.

(** The keys of an object of the JSON projection. *)
Definition json_keys : gset string :=
  {[ "id"; "absoluteStartUrl"; "manifestUrl"; "lighthouseScore";
     "webPageTest"; "pageSpeed"; "created"; "updated" ]}.

(** The row and the object that the writers make of a record whose
    timestamps are dates. *)
Definition csv_row (p : Pwa) : list JsVal :=
  [JStr (id p); JStr (absoluteStartUrl p); JStr (manifestUrl p);
   lighthouseScore p;
   JStr (JsDate.date_string (created p)); JStr (JsDate.date_string (updated p))].

Definition json_object (p : Pwa) : gmap string JsVal :=
  <["updated" := JStr (JsDate.date_string (updated p))]>
  (<["created" := JStr (JsDate.date_string (created p))]>
  (<["pageSpeed" := pageSpeed p]>
  (<["webPageTest" := webPageTest p]>
  (<["lighthouseScore" := lighthouseScore p]>
  (<["manifestUrl" := JStr (manifestUrl p)]>
  (<["absoluteStartUrl" := JStr (absoluteStartUrl p)]>
  (<["id" := JStr (id p)]> ∅))))))).

(** A query-string value that is a decimal integer: an optional sign
    and one or more digits, nothing else. *)
Definition all_digits (s : string) : bool :=
  match s with
  | EmptyString => false
  | _ => forallb is_digit (list_ascii_of_string s)
  end.

Definition numeric (s : string) : bool :=
  match s with
  | String c r =>
      if Ascii.eqb c "-" || Ascii.eqb c "+" then all_digits r else all_digits s
  | EmptyString => false
  end.

(** A value that starts, after white space and one optional sign, with
    a decimal digit. *)
Definition leading_integer (s : string) : bool :=
  match trim_start s with
  | String c r =>
      if Ascii.eqb c "-" || Ascii.eqb c "+"
      then match r with
           | String d _ => is_digit d
           | EmptyString => false
           end
      else is_digit c
  | EmptyString => false
  end.

(** An observer of the trace which accepts it as long as the renders
    take their turns: render [next] may begin when no render is in
    flight, it must end before anything else begins, and time does not
    run backwards.  [finished] lists the records whose render has
    ended, in the order they ended. *)
Record Monitor := {
  next : nat;
  finished : list Pwa;
  in_flight : option Pwa;
  last : nat
}.

Definition idle (n t : nat) (done : list Pwa) : Monitor :=
  {| next := n; finished := done; in_flight := None; last := t |}.

Definition observe (m : Monitor) (e : Event) : option Monitor :=
  match e with
  | EvRenderBegin n p t =>
      match in_flight m with
      | None =>
          if (n =? next m)%nat && (last m <=? t)%nat
          then Some {| next := next m; finished := finished m;
                       in_flight := Some p; last := t |}
          else None
      | Some _ => None
      end
  | EvRenderEnd n t =>
      match in_flight m with
      | Some p =>
          if (n =? next m)%nat && (last m <=? t)%nat
          then Some (idle (S (next m)) t (finished m ++ [p]))
          else None
      | None => None
      end
  | _ => Some m
  end.

Fixpoint watch (tr : list Event) (m : Monitor) : option Monitor :=
  match tr with
  | [] => Some m
  | e :: tr' =>
      match observe m e with
      | Some m' => watch tr' m'
      | None => None
      end
  end.

(** The state after one render has been awaited: the response is as it
    was and the clock is at the end of the render. *)
Definition turn (p : Pwa) (latency : nat) (s : State) : State :=
  at_time (now s + latency) (render_ends (rendered s) latency (render_begins p s)).

(** The calls of [feed.item] are written down in the order of their
    times, none earlier than [lo] and none later than [t]. *)
Fixpoint in_time (lo : nat) (l : list (nat * Item)) (t : nat) : Prop :=
  match l with
  | [] => (lo ≤ t)%nat
  | x :: l' => (lo ≤ x.1)%nat ∧ in_time x.1 l' t
  end.

(** The feed has one item for each record, in the order of the
    records. *)
Definition in_record_order (l : list Pwa) (its : list Item) : Prop :=
  Forall2 (λ p it, ∃ html, it = rss_item p html) l its.

(** The header that the route sets before anything else. *)
Definition cache_header : string := "public, max-age=3600".

(** The header is in place, and was in place whenever a response went
    out. *)
Definition cached (s : State) : Prop :=
  headers s !! "Cache-Control" = Some cache_header
  ∧ Forall (λ w, sent_headers w !! "Cache-Control" = Some cache_header) (sent s).

(** The response that carries the feed. *)
Definition feed_response (today : Z) (xml : Feed → string)
    (h : gmap string string) (its : list Item) : Sent :=
  {| sent_status := 200;
     sent_headers := <["Content-Type" := "application/rss+xml"]> h;
     sent_body := body_send (xml (new_feed today its)) |}.

(** The response to an error, sent with the headers [h]. *)
Definition error_response (code : Z) (h : gmap string string) (err : JsVal) : Sent :=
  {| sent_status := code; sent_headers := h; sent_body := body_json err |}.

(** The state of the response when the route has set its header. *)
Definition prepared : State := setHeader "Cache-Control" cache_header initial.

(** What becomes of the promise chain once a writer has run: an
    exception of the writer is handled by the [catch] of the route. *)
Definition settle_write (r : State * Completion unit) : State :=
  match r with
  | (s, Normal _) => s
  | (s, Throw e) => (on_error e s).1
  end.

(** The options that [renderOnePwaRss] builds for a record. *)
Definition rss_arg (fromRequest : Request → string → gmap string JsVal)
    (req : Request) (pwa : Pwa) : RenderArg :=
  {| arg_metadata := fromRequest req (originalUrl req);
     arg_pwa := pwa;
     arg_title := "PWA Directory: " +:+ name pwa;
     arg_description :=
       "PWA Directory: " +:+ name pwa +:+ " - " +:+ description pwa;
     arg_backlink := true;
     arg_contentOnly := q_contentOnly (query req) |}.

(** The template engine reports no error for this record, whenever it
    is asked. *)
Definition renders_well (view_engine : nat → string → RenderArg → nat * (JsVal * JsVal))
    (a : RenderArg) : Prop :=
  ∀ t, truthy (fst (snd (view_engine t "pwas/view-rss.hbs" a))) = false.

(** The template engine reports an error for this record, whenever it
    is asked. *)
Definition render_fails (view_engine : nat → string → RenderArg → nat * (JsVal * JsVal))
    (a : RenderArg) : Prop :=
  ∀ t, truthy (fst (snd (view_engine t "pwas/view-rss.hbs" a))) = true.

(** The number of days of month [m] (0 for January); [leap] is 1 in a
    leap year. *)
Definition month_length (m leap : Z) : Z :=
  match m with
  | 1 => 28 + leap
  | 3 | 5 | 8 | 10 => 30
  | _ => 31
  end.

(** The day of the year on which month [m] begins. *)
Definition month_start (m leap : Z) : Z :=
  match m with
  | 0 => 0
  | 1 => 31
  | 2 => 59 + leap
  | 3 => 90 + leap
  | 4 => 120 + leap
  | 5 => 151 + leap
  | 6 => 181 + leap
  | 7 => 212 + leap
  | 8 => 243 + leap
  | 9 => 273 + leap
  | 10 => 304 + leap
  | _ => 334 + leap
  end.

(** The day number of the calendar date [y]-[m]-[d], counted from
    1970-01-01. *)
Definition MakeDay (y m d : Z) : Z :=
  JsDate.DayFromYear y
  + month_start m (if JsDate.DaysInYear y =? 366 then 1 else 0) + d - 1.

(** The number that a run of digits denotes, after [acc]. *)
Fixpoint digits_value (s : string) (acc : Z) : Z :=
  match s with
  | EmptyString => acc
  | String c r => digits_value r (10 * acc + digit_val c)
  end.

(** The content type that goes with a body. *)
Definition content_type_of (b : Body) : string :=
  match b with
  | body_json _ => "application/json"
  | body_csv _ => "text/csv"
  | body_send _ => "application/rss+xml"
  end.

(** A response as the route means it: a 200 whose content type is that
    of its body, or a 404 or 500 that carries an error as JSON and no
    content type of the route's. *)
Definition well_typed (w : Sent) : Prop :=
  (sent_status w = 200
   ∧ sent_headers w !! "Content-Type" = Some (content_type_of (sent_body w)))
  ∨ ((sent_status w = 404 ∨ sent_status w = 500)
     ∧ sent_headers w !! "Content-Type" = None
     ∧ ∃ e, sent_body w = body_json e).

(** The calls to the record store among the events. *)
Definition is_store_call (e : Event) : bool :=
  match e with
  | EvFind _ | EvList _ _ _ => true
  | _ => false
  end.

(** The call that a request makes to the record store. *)
Definition store_event (req : Request) : Event :=
  match single req with
  | Some key => EvFind key
  | None =>
      EvList (parse_skip req) (parse_limit req) (str_or (q_sort (query req)) "newest")
  end.

(** The record store answers the request with [result]: the record
    found, as a list of one, or the listing. *)
Definition fetched (find : string → Outcome Pwa)
    (list_pwas : JsNum → JsNum → string → Outcome ListResult)
    (req : Request) (result : ListResult) : Prop :=
  match single req with
  | Some key => ∃ p, find key = Resolves p ∧ result = {| pwas := [p] |}
  | None =>
      list_pwas (parse_skip req) (parse_limit req) (str_or (q_sort (query req)) "newest")
      = Resolves result
  end.

(** The error of [toISOString] on a timestamp that is not a date. *)
Definition range_error : JsVal := JError "RangeError" "Invalid time value".

(** The headers of a 200: the header of the route and a content
    type. *)
Definition ok_headers (content_type : string) : gmap string string :=
  <["Content-Type" := content_type]> {[ "Cache-Control" := cache_header ]}.

(* ================================================================== *)
(** * Sample requests and collaborators                                *)
(* ================================================================== *)

Module Sample.

Definition foo : Pwa :=
  {| id := "a"; displayName := "Foo"; name := "foo"; description := "first";
     absoluteStartUrl := "https://foo.example/";
     manifestUrl := "https://foo.example/manifest.json";
     iconUrl128 := "https://foo.example/icon.png";
     lighthouseScore := JNum 90; webPageTest := JUndefined; pageSpeed := JNull;
     created := 1577959200000; updated := 1578182400000 |}.

Definition bar : Pwa :=
  {| id := "b"; displayName := "Bar"; name := "bar"; description := "second";
     absoluteStartUrl := "https://bar.example/";
     manifestUrl := "https://bar.example/manifest.json";
     iconUrl128 := "https://bar.example/icon.png";
     lighthouseScore := JNum 55; webPageTest := JUndefined; pageSpeed := JNull;
     created := 1578182400000; updated := 1578182400000 |}.

(** A record created on the first day of the year 10000. *)
Definition far : Pwa :=
  {| id := "c"; displayName := "Far"; name := "far"; description := "third";
     absoluteStartUrl := "https://far.example/";
     manifestUrl := "https://far.example/manifest.json";
     iconUrl128 := "https://far.example/icon.png";
     lighthouseScore := JNum 10; webPageTest := JUndefined; pageSpeed := JNull;
     created := 253402300800000; updated := 253402300800000 |}.

Definition q (format skip limit : option string) : Query :=
  {| q_format := format; q_sort := None; q_skip := skip; q_limit := limit;
     q_contentOnly := None |}.

Definition listing (format skip limit : option string) : Request :=
  {| params_id := None; query := q format skip limit;
     originalUrl := "/api/pwa" |}.

Definition one (key : string) (format : option string) : Request :=
  {| params_id := Some key; query := q format None None;
     originalUrl := "/api/pwa/" +:+ key |}.

(** A store that holds [foo] and [bar]. *)
Definition find (key : string) : Outcome Pwa :=
  if String.eqb key "a" then Resolves foo
  else if String.eqb key "b" then Resolves bar
  else Rejects (JStr "not found").

Definition list_pwas (skip limit : JsNum) (sort : string) : Outcome ListResult :=
  Resolves {| pwas := [foo; bar] |}.

(** A store that is down. *)
Definition list_down (skip limit : JsNum) (sort : string) : Outcome ListResult :=
  Rejects (JError "Error" "store unavailable").

Definition fromRequest (req : Request) (url : string) : gmap string JsVal :=
  {[ "canonical" := JStr url ]}.

(** An engine that renders every record, the first one slowly. *)
Definition engine (t : nat) (view : string) (a : RenderArg) : nat * (JsVal * JsVal) :=
  (if String.eqb (id (arg_pwa a)) "a" then 7%nat else 2%nat,
   (JNull, JStr ("<h1>" +:+ arg_title a +:+ "</h1>"))).

(** An engine that fails on [bar]. *)
Definition engine_failing (t : nat) (view : string) (a : RenderArg)
  : nat * (JsVal * JsVal) :=
  if String.eqb (id (arg_pwa a)) "b"
  then (1%nat, (JError "Error" "template", JUndefined))
  else engine t view a.

Definition today : Z := 1600000000000.

(** A record whose [updated] is not a date. *)
Definition broken : Pwa :=
  {| id := "d"; displayName := "Broken"; name := "broken"; description := "fourth";
     absoluteStartUrl := "https://broken.example/";
     manifestUrl := "https://broken.example/manifest.json";
     iconUrl128 := "https://broken.example/icon.png";
     lighthouseScore := JNum 1; webPageTest := JUndefined; pageSpeed := JNull;
     created := 1578182400000; updated := 8640000000000001 |}.

Definition list_broken (skip limit : JsNum) (sort : string) : Outcome ListResult :=
  Resolves {| pwas := [foo; broken] |}.

(** A store that lists [foo] alone, and one that lists nothing. *)
Definition list_one (skip limit : JsNum) (sort : string) : Outcome ListResult :=
  Resolves {| pwas := [foo] |}.

Definition list_empty (skip limit : JsNum) (sort : string) : Outcome ListResult :=
  Resolves {| pwas := [] |}.

Definition xml (f : Feed) : string :=
  "<rss>" +:+ String.concat "," (guid <$> feed_items f) +:+ "</rss>".

End Sample.

(* ================================================================== *)
(** * Query parameters                                                 *)
(* ================================================================== *)

Lemma read_digits_seen (s : string) (acc : Z) :
  ∃ z, read_digits s acc true = Some z.
Proof.
  revert acc. induction s as [|c r IH]; intros acc; simpl.
  - eauto.
  - destruct (is_digit c); eauto.
Qed.

Lemma read_digits_start (s : string) :
  read_digits s 0 false = None ↔
  match s with String d _ => is_digit d = false | EmptyString => True end.
Proof.
  destruct s as [|d r]; simpl; [tauto|].
  destruct (is_digit d).
  - destruct (read_digits_seen r (10 * 0 + digit_val d)) as [z ->].
    split; discriminate.
  - tauto.
Qed.

(** The Number value of an integer is a number. *)
Lemma to_Number_not_NaN (negative : bool) (m : Z) : to_Number negative m ≠ NaN.
Proof.
  unfold to_Number. destruct (m =? 0); [by destruct negative|].
  by destruct (nearest_double m).
Qed.

(** Below 2^53 every integer is a double. *)
Lemma to_Number_exact (negative : bool) (m : Z) :
  0 < m < 2 ^ 53 → to_Number negative m = Num (if negative then - m else m).
Proof.
  intros [H0 H1]. unfold to_Number, nearest_double.
  destruct (Z.eqb_spec m 0) as [->|_]; [lia|].
  by rewrite (proj2 (Z.ltb_lt _ _) H1).
Qed.

(** The double nearest to a positive integer is positive. *)
Lemma nearest_double_pos (m v : Z) : 0 < m → nearest_double m = Some v → 0 < v.
Proof.
  intros Hm. unfold nearest_double.
  destruct (Z.ltb_spec m (2 ^ 53)) as [|Hbig]; [by intros [= <-]|].
  cbv zeta.
  destruct (2 ^ 1024 <=? _); [done|]. intros [= <-].
  assert (53 <= Z.log2 m) as Hl.
  { rewrite <- (Z.log2_pow2 53) by lia. by apply Z.log2_le_mono. }
  set (e := Z.log2 m - 52) in *.
  assert (0 < 2 ^ e) as Hp by (apply Z.pow_pos_nonneg; lia).
  assert (2 ^ e <= m) as Hle.
  { transitivity (2 ^ Z.log2 m); [apply Z.pow_le_mono_r; lia | apply Z.log2_spec; lia]. }
  assert (1 <= m / 2 ^ e) as Hq by (apply Z.div_le_lower_bound; lia).
  destruct (_ || _); nia.
Qed.

(** From 2^53 on the doubles are the multiples of the power of two
    that leaves 53 bits, and the double that is chosen is a nearest one:
    it is off by half that power at most. *)
Lemma nearest_double_nearest (m v : Z) :
  2 ^ 53 <= m → nearest_double m = Some v →
  v mod 2 ^ (Z.log2 m - 52) = 0 ∧ 2 * Z.abs (v - m) <= 2 ^ (Z.log2 m - 52).
Proof.
  intros Hm. unfold nearest_double.
  destruct (Z.ltb_spec m (2 ^ 53)) as [|_]; [lia|].
  cbv zeta.
  destruct (2 ^ 1024 <=? _); [done|]. intros [= <-].
  assert (53 <= Z.log2 m) as Hl.
  { rewrite <- (Z.log2_pow2 53) by lia. apply Z.log2_le_mono. lia. }
  set (e := Z.log2 m - 52) in *.
  assert (0 < 2 ^ (e - 1)) as Hh by (apply Z.pow_pos_nonneg; lia).
  assert (2 ^ e = 2 * 2 ^ (e - 1)) as He.
  { replace e with (Z.succ (e - 1)) at 1 by lia. apply Z.pow_succ_r. lia. }
  pose proof (Z.div_mod m (2 ^ e) ltac:(lia)) as Hdm.
  pose proof (Z.mod_pos_bound m (2 ^ e) ltac:(lia)) as Hr.
  split; [apply Z.mod_mul; lia|].
  destruct (Z.ltb_spec (2 ^ (e - 1)) (m mod 2 ^ e)) as [Hup|Hdown]; cbn [orb].
  - lia.
  - destruct (Z.eqb_spec (m mod 2 ^ e) (2 ^ (e - 1))) as [Heq|Hne]; cbn [andb].
    + destruct (Z.odd (m / 2 ^ e)); lia.
    + lia.
Qed.

(** The Number value of an integer other than zero is truthy. *)
Lemma num_or_to_Number (negative : bool) (m : Z) (d : JsNum) :
  0 < m → num_or (to_Number negative m) d = to_Number negative m.
Proof.
  intros Hm. unfold to_Number.
  destruct (Z.eqb_spec m 0); [lia|].
  destruct (nearest_double m) as [v|] eqn:Hv; [|done].
  apply (nearest_double_pos m v Hm) in Hv.
  destruct negative; destruct v; done || lia.
Qed.

(** [parseInt] gives [NaN] exactly on the texts without a leading
    integer. *)
Lemma parseInt_NaN (s : string) :
  parseInt s = NaN ↔ leading_integer s = false.
Proof.
  unfold parseInt, leading_integer.
  destruct (trim_start s) as [|c r] eqn:Ht; [done|].
  destruct (Ascii.eqb c "-") eqn:Hm; [|destruct (Ascii.eqb c "+") eqn:Hp]; simpl.
  1, 2: destruct r as [|d r']; simpl; [done|];
        destruct (is_digit d);
        [destruct (read_digits_seen r' (10 * 0 + digit_val d)) as [z ->];
         split; [intros H; by apply to_Number_not_NaN in H | done]
        | done].
  destruct (is_digit c);
    [destruct (read_digits_seen r (10 * 0 + digit_val c)) as [z ->];
     split; [intros H; by apply to_Number_not_NaN in H | done]
    | done].
Qed.

Example parseInt_digits : parseInt "25" = Num 25.
Proof. reflexivity. Qed.

Example parseInt_prefix : parseInt "12abc" = Num 12.
Proof. reflexivity. Qed.

Example parseInt_signed : parseInt "  -7 " = Num (-7).
Proof. reflexivity. Qed.

Example parseInt_word : parseInt "abc" = NaN.
Proof. reflexivity. Qed.

Example parseInt_undefined : parseInt (ToString None) = NaN.
Proof. reflexivity. Qed.

(** White space of more than one byte is skipped as well: a no-break
    space (U+00A0), a byte order mark (U+FEFF), a line separator
    (U+2028). *)
Example parseInt_no_break_space :
  parseInt (String (ascii_of_nat 194) (String (ascii_of_nat 160) "5")) = Num 5.
Proof. reflexivity. Qed.

Example parseInt_byte_order_mark :
  parseInt (String (ascii_of_nat 239) (String (ascii_of_nat 187)
             (String (ascii_of_nat 191) "-12"))) = Num (-12).
Proof. reflexivity. Qed.

Example parseInt_line_separator :
  parseInt (String (ascii_of_nat 226) (String (ascii_of_nat 128)
             (String (ascii_of_nat 168) " 7"))) = Num 7.
Proof. reflexivity. Qed.

(** Other characters of more than one byte are not: U+00E9. *)
Example parseInt_letter :
  parseInt (String (ascii_of_nat 195) (String (ascii_of_nat 169) "5")) = NaN.
Proof. reflexivity. Qed.

(** The result is a double: 2^53 + 1 is read as 2^53, 2^53 + 3 as
    2^53 + 4, and a zero with a minus sign as the negative zero. *)
Example parseInt_rounds : parseInt "9007199254740993" = Num 9007199254740992.
Proof. reflexivity. Qed.

Example parseInt_rounds_to_even : parseInt "9007199254740995" = Num 9007199254740996.
Proof. reflexivity. Qed.

Example parseInt_negative_zero : parseInt "-0" = NegZero.
Proof. reflexivity. Qed.

Lemma num_or_truthy (n d : JsNum) :
  d ≠ NaN → d ≠ Num 0 → d ≠ NegZero →
  num_or n d ≠ NaN ∧ num_or n d ≠ Num 0 ∧ num_or n d ≠ NegZero.
Proof.
  intros Hd1 Hd2 Hd3. destruct n as [|[|z|z]| |b]; simpl; done.
Qed.

Lemma num_or_falsy (n d : JsNum) :
  n = NaN ∨ n = Num 0 ∨ n = NegZero → num_or n d = d.
Proof. by intros [-> | [-> | ->]]. Qed.

(* ================================================================== *)
(** * Decimal numerals                                               *)
(* ================================================================== *)

Lemma read_uint_acc (d : Decimal.uint) (acc : positive) :
  read_digits (NilEmpty.string_of_uint d) (Z.pos acc) true
  = Some (Z.pos (Pos.of_uint_acc d acc)).
Proof.
  revert acc. induction d as [|d IH|d IH|d IH|d IH|d IH|d IH|d IH|d IH|d IH|d IH];
    intros acc; [done|..]; cbn [NilEmpty.string_of_uint read_digits Pos.of_uint_acc];
    change (is_digit _) with true; cbn match; rewrite <- IH; f_equal;
    match goal with
    | |- context [digit_val ?c] =>
        let v := eval vm_compute in (digit_val c) in change (digit_val c) with v
    end; lia.
Qed.

Lemma read_uint (d : Decimal.uint) :
  read_digits (NilEmpty.string_of_uint d) 0 true = Some (Z.of_N (Pos.of_uint d)).
Proof.
  induction d as [|d IH|d IH|d IH|d IH|d IH|d IH|d IH|d IH|d IH|d IH];
    [done | exact IH |..];
    cbn [NilEmpty.string_of_uint read_digits Pos.of_uint];
    change (is_digit _) with true; cbn match;
    exact (read_uint_acc d _).
Qed.

(** A first digit is all that [read_digits] needs to go on. *)
Lemma read_digits_first (c : ascii) (r : string) :
  is_digit c = true →
  read_digits (String c r) 0 false = read_digits (String c r) 0 true.
Proof. intros H. cbn. by rewrite H. Qed.

Lemma digit_not_sign (c : ascii) :
  is_digit c = true → Ascii.eqb c "-" = false ∧ Ascii.eqb c "+" = false.
Proof. destruct c as [[] [] [] [] [] [] [] []]; done. Qed.

(** A text that starts with a digit or with a sign does not start with
    white space. *)
Lemma skip_white_digit (c : ascii) (r : string) :
  is_digit c = true ∨ c = "-"%char ∨ c = "+"%char → skip_white (String c r) = None.
Proof.
  intros [H | [-> | ->]].
  - destruct c as [[] [] [] [] [] [] [] []]; try done;
      by destruct r as [|b [|c0 r3]].
  - by destruct r as [|b [|c0 r3]].
  - by destruct r as [|b [|c0 r3]].
Qed.

Lemma trim_start_digit (c : ascii) (r : string) :
  is_digit c = true ∨ c = "-"%char ∨ c = "+"%char →
  trim_start (String c r) = String c r.
Proof.
  intros H. unfold trim_start. cbn [String.length trim_fuel].
  by rewrite (skip_white_digit c r H).
Qed.

(** A text that starts with a digit is read from its first
    character. *)
Lemma parseInt_unsigned (c : ascii) (r : string) :
  is_digit c = true →
  parseInt (String c r)
  = match read_digits (String c r) 0 true with
    | Some z => to_Number false z
    | None => NaN
    end.
Proof.
  intros H. destruct (digit_not_sign c H) as (Hm & Hp).
  unfold parseInt. rewrite (trim_start_digit c r (or_introl H)). rewrite Hm, Hp.
  by rewrite (read_digits_first c r H).
Qed.

(** A text that starts with a minus sign is read from its second
    character. *)
Lemma parseInt_minus (r : string) :
  parseInt (String "-" r)
  = match read_digits r 0 false with
    | Some z => to_Number true z
    | None => NaN
    end.
Proof.
  unfold parseInt. by rewrite (trim_start_digit "-" r (or_intror (or_introl eq_refl))).
Qed.

Lemma string_of_pos_first (p : positive) :
  ∃ c r, NilEmpty.string_of_uint (Pos.to_uint p) = String c r ∧ is_digit c = true.
Proof.
  pose proof (DecimalPos.Unsigned.of_to p) as H.
  destruct (Pos.to_uint p); [done|..]; cbn; by do 2 eexists.
Qed.

Lemma string_of_pos_nonnil (p : positive) :
  NilZero.string_of_uint (Pos.to_uint p) = NilEmpty.string_of_uint (Pos.to_uint p).
Proof.
  pose proof (DecimalPos.Unsigned.of_to p) as H.
  by destruct (Pos.to_uint p).
Qed.

Lemma parseInt_pos (p : positive) :
  parseInt (NilEmpty.string_of_uint (Pos.to_uint p)) = to_Number false (Z.pos p).
Proof.
  destruct (string_of_pos_first p) as (c & r & E & Hc).
  pose proof (read_uint (Pos.to_uint p)) as Hr.
  rewrite DecimalPos.Unsigned.of_to in Hr.
  rewrite E in *. rewrite (parseInt_unsigned c r Hc), Hr. done.
Qed.

(** Printing an integer in decimal and parsing it gives the Number
    value of the integer. *)
Lemma parseInt_Z_to_string (z : Z) :
  parseInt (Z_to_string z) = to_Number (z <? 0) (Z.abs z).
Proof.
  unfold Z_to_string. destruct z as [|p|p]; [done| |].
  - cbn [Z.to_int NilZero.string_of_int]. rewrite string_of_pos_nonnil.
    apply parseInt_pos.
  - cbn [Z.to_int NilZero.string_of_int]. rewrite string_of_pos_nonnil.
    destruct (string_of_pos_first p) as (c & r & E & Hc).
    pose proof (read_uint (Pos.to_uint p)) as Hr.
    rewrite DecimalPos.Unsigned.of_to in Hr. rewrite E in *.
    rewrite parseInt_minus.
    rewrite (read_digits_first c r Hc), Hr. done.
Qed.

(** Up to 2^53 the Number value of an integer is the integer. *)
Lemma to_Number_small (z : Z) :
  Z.abs z < 2 ^ 53 → to_Number (z <? 0) (Z.abs z) = Num z.
Proof.
  intros H. destruct z as [|p|p]; [done| |].
  - exact (to_Number_exact false (Z.pos p) (conj eq_refl H)).
  - exact (to_Number_exact true (Z.pos p) (conj eq_refl H)).
Qed.

Lemma read_digits_all (a : string) (acc : Z) :
  string_forall is_digit a = true →
  read_digits a acc true = Some (digits_value a acc).
Proof.
  revert acc. induction a as [|c a IH]; intros acc H; [done|].
  cbn [string_forall] in H. apply andb_true_iff in H as [Hc Ha].
  change (read_digits (String c a) acc true)
    with (if is_digit c then read_digits a (10 * acc + digit_val c) true
          else Some acc).
  rewrite Hc. by apply IH.
Qed.

Lemma read_digits_then (a : string) (c : ascii) (r : string) (acc : Z) :
  string_forall is_digit a = true → is_digit c = false →
  read_digits (a +:+ String c r) acc true = Some (digits_value a acc).
Proof.
  revert acc. induction a as [|d a IH]; intros acc H Hc.
  - change (read_digits ("" +:+ String c r) acc true)
      with (if is_digit c then read_digits r (10 * acc + digit_val c) true
            else Some acc).
    by rewrite Hc.
  - cbn [string_forall] in H. apply andb_true_iff in H as [Hd Ha].
    change (read_digits (String d a +:+ String c r) acc true)
      with (if is_digit d
            then read_digits (a +:+ String c r) (10 * acc + digit_val d) true
            else Some acc).
    rewrite Hd. by apply IH.
Qed.

Lemma string_of_uint_digits (d : Decimal.uint) :
  string_forall is_digit (NilEmpty.string_of_uint d) = true.
Proof. induction d; cbn; done. Qed.

(** An integer printed in decimal and followed by anything that does
    not start with a digit is read as the integer. *)
Lemma parseInt_then (z : Z) (c : ascii) (r : string) :
  is_digit c = false →
  parseInt (Z_to_string z +:+ String c r) = to_Number (z <? 0) (Z.abs z).
Proof.
  intros Hc.
  assert (∀ p, read_digits (NilEmpty.string_of_uint (Pos.to_uint p) +:+ String c r)
                 0 false = Some (Z.pos p)
               ∧ parseInt (NilEmpty.string_of_uint (Pos.to_uint p) +:+ String c r)
                 = to_Number false (Z.pos p)) as Hpos.
  { intros p. destruct (string_of_pos_first p) as (c0 & r0 & E & Hc0).
    pose proof (read_digits_then (NilEmpty.string_of_uint (Pos.to_uint p)) c r 0
                  (string_of_uint_digits _) Hc) as Hr.
    pose proof (read_digits_all (NilEmpty.string_of_uint (Pos.to_uint p)) 0
                  (string_of_uint_digits _)) as Ha.
    rewrite read_uint, DecimalPos.Unsigned.of_to in Ha. injection Ha as Ha.
    rewrite <- Ha in Hr. rewrite E in *.
    change (String c0 r0 +:+ String c r) with (String c0 (r0 +:+ String c r)) in *.
    rewrite (read_digits_first c0 _ Hc0), (parseInt_unsigned c0 _ Hc0), Hr. done. }
  unfold Z_to_string. destruct z as [|p|p].
  - change (parseInt (NilZero.string_of_int (Z.to_int 0) +:+ String c r))
      with (parseInt (String "0" (String c r))).
    rewrite (parseInt_unsigned "0" _ eq_refl).
    change (String "0" (String c r)) with ("0" +:+ String c r).
    by rewrite (read_digits_then "0" c r 0 eq_refl Hc).
  - cbn [Z.to_int NilZero.string_of_int]. rewrite string_of_pos_nonnil.
    apply Hpos.
  - cbn [Z.to_int NilZero.string_of_int]. rewrite string_of_pos_nonnil.
    destruct (Hpos p) as [Hr _].
    change (String "-" ?a +:+ ?b) with (String "-" (a +:+ b)).
    rewrite parseInt_minus. by rewrite Hr.
Qed.

(* ================================================================== *)
(** * Dates at day precision                                           *)
(* ================================================================== *)

Lemma string_forall_app (P : ascii → bool) (a b : string) :
  string_forall P (a +:+ b) = string_forall P a && string_forall P b.
Proof.
  induction a as [|c a IH]; simpl; [done|].
  by rewrite IH, andb_assoc.
Qed.

Lemma digit_char_is_digit (n : Z) : is_digit (digit_char (n mod 10)) = true.
Proof.
  assert (0 <= n mod 10 < 10) as H by (apply Z.mod_pos_bound; lia).
  assert (n mod 10 = 0 ∨ n mod 10 = 1 ∨ n mod 10 = 2 ∨ n mod 10 = 3 ∨ n mod 10 = 4
          ∨ n mod 10 = 5 ∨ n mod 10 = 6 ∨ n mod 10 = 7 ∨ n mod 10 = 8 ∨ n mod 10 = 9)
    as Hd by lia.
  destruct Hd as [-> | [-> | [-> | [-> | [-> | [-> | [-> | [-> | [-> | ->]]]]]]]]];
    reflexivity.
Qed.

Lemma is_digit_date_char (c : ascii) : is_digit c = true → date_char c = true.
Proof. unfold date_char. by intros ->. Qed.

Lemma fixed_digits_date_chars (w : nat) (n : Z) :
  string_forall date_char (fixed_digits w n) = true.
Proof.
  revert n. induction w as [|w IH]; intros n; cbn [fixed_digits]; [done|].
  rewrite string_forall_app, IH. cbn [string_forall andb].
  by rewrite (is_digit_date_char _ (digit_char_is_digit n)).
Qed.

Lemma year_string_date_chars (y : Z) :
  string_forall date_char (JsDate.year_string y) = true.
Proof.
  unfold JsDate.year_string.
  destruct ((0 <=? y) && (y <=? 9999)).
  - apply fixed_digits_date_chars.
  - rewrite string_forall_app, fixed_digits_date_chars.
    by destruct (y <? 0).
Qed.

Lemma date_string_date_chars (t : Z) :
  string_forall date_char (JsDate.date_string t) = true.
Proof.
  unfold JsDate.date_string.
  rewrite !string_forall_app, year_string_date_chars, !fixed_digits_date_chars.
  reflexivity.
Qed.

Lemma date_char_not_T (c : ascii) : date_char c = true → Ascii.eqb c "T" = false.
Proof.
  destruct c as [[] [] [] [] [] [] [] []]; done.
Qed.

(** [split] always returns a first part. *)
Lemma split_nonempty (sep : ascii) (s : string) : split sep s ≠ [].
Proof.
  destruct s as [|c r]; simpl; [done|].
  destruct (Ascii.eqb c sep); [done|]. by destruct (split sep r).
Qed.

(** Splitting at a separator that the first part does not contain
    gives that part first. *)
Lemma split_first (sep : ascii) (P : ascii → bool) (a b : string) :
  (∀ c, P c = true → Ascii.eqb c sep = false) →
  string_forall P a = true →
  ∃ rest, split sep (a +:+ String sep b) = a :: rest.
Proof.
  intros HP. induction a as [|c a IH]; simpl; intros Ha.
  - rewrite Ascii.eqb_refl. eauto.
  - apply andb_true_iff in Ha as [Hc Ha].
    rewrite (HP c Hc). destruct (IH Ha) as [rest ->]. eauto.
Qed.

Lemma TimeClip_valid (t : Z) : valid_date t → JsDate.TimeClip t = Some t.
Proof.
  unfold valid_date, JsDate.TimeClip. intros H.
  by rewrite (proj2 (Z.leb_le _ _) H).
Qed.

Lemma TimeClip_invalid (t : Z) : ¬ valid_date t → JsDate.TimeClip t = None.
Proof.
  unfold valid_date, JsDate.TimeClip. intros H.
  destruct (Z.leb_spec (Z.abs t) 8640000000000000); [done | reflexivity].
Qed.

(** On a valid timestamp [getDate] returns the date part of the ISO
    timestamp, which is the timestamp cut at its time designator. *)
Lemma getDate_valid (t : Z) :
  valid_date t → getDate t = Normal (JsDate.date_string t).
Proof.
  intros Hv. unfold getDate. rewrite (TimeClip_valid t Hv).
  change (JsDate.toISOString (Some t))
    with (Normal (JsDate.date_string t +:+ String "T" (JsDate.time_string t))).
  cbn [cbind].
  destruct (split_first "T" date_char (JsDate.date_string t) (JsDate.time_string t)
              date_char_not_T (date_string_date_chars t)) as [rest ->].
  reflexivity.
Qed.

(** On anything else it throws. *)
Lemma getDate_invalid (t : Z) :
  ¬ valid_date t → getDate t = Throw (JError "RangeError" "Invalid time value").
Proof.
  intros Hv. unfold getDate. by rewrite (TimeClip_invalid t Hv).
Qed.

Lemma Day_of_midnight (t : Z) :
  JsDate.Day (JsDate.msPerDay * JsDate.Day t) = JsDate.Day t.
Proof.
  unfold JsDate.Day, JsDate.msPerDay.
  rewrite Z.mul_comm. apply Z.div_mul. lia.
Qed.

(** The date part is the same all day long: it is that of the midnight
    that opens the day. *)
Lemma date_string_midnight (t : Z) :
  JsDate.date_string (JsDate.msPerDay * JsDate.Day t) = JsDate.date_string t.
Proof.
  pose proof (Day_of_midnight t) as HD.
  assert (JsDate.YearFromTime (JsDate.msPerDay * JsDate.Day t) = JsDate.YearFromTime t) as HY.
  { unfold JsDate.YearFromTime. by rewrite HD. }
  assert (JsDate.DayWithinYear (JsDate.msPerDay * JsDate.Day t) = JsDate.DayWithinYear t) as HW.
  { unfold JsDate.DayWithinYear. by rewrite HD, HY. }
  assert (JsDate.InLeapYear (JsDate.msPerDay * JsDate.Day t) = JsDate.InLeapYear t) as HL.
  { unfold JsDate.InLeapYear. by rewrite HY. }
  assert (JsDate.MonthFromTime (JsDate.msPerDay * JsDate.Day t) = JsDate.MonthFromTime t) as HM.
  { unfold JsDate.MonthFromTime. by rewrite HW, HL. }
  assert (JsDate.DateFromTime (JsDate.msPerDay * JsDate.Day t) = JsDate.DateFromTime t) as HT.
  { unfold JsDate.DateFromTime. by rewrite HW, HL, HM. }
  unfold JsDate.date_string. by rewrite HY, HM, HT.
Qed.

(** [YearFromTime] is the year the day falls in. *)
Lemma YearFromTime_spec (t : Z) :
  JsDate.DayFromYear (JsDate.YearFromTime t) <= JsDate.Day t
    < JsDate.DayFromYear (JsDate.YearFromTime t + 1).
Proof.
  unfold JsDate.YearFromTime.
  set (d := JsDate.Day t). clearbody d.
  set (y := 1970 + 400 * d / 146097).
  destruct (Z.leb_spec (JsDate.DayFromYear (y + 1)) d) as [H1|H1].
  - split; [done|]. subst y. unfold JsDate.DayFromYear in *.
    Z.to_euclidean_division_equations. lia.
  - destruct (Z.ltb_spec d (JsDate.DayFromYear y)) as [H2|H2].
    + replace (y - 1 + 1) with y by lia. split; [|done].
      subst y. unfold JsDate.DayFromYear in *.
      Z.to_euclidean_division_equations. lia.
    + done.
Qed.

Lemma DayFromYear_mono (y y' : Z) :
  y <= y' → JsDate.DayFromYear y <= JsDate.DayFromYear y'.
Proof.
  intros H. unfold JsDate.DayFromYear.
  Z.to_euclidean_division_equations. lia.
Qed.

(** It is the largest year that has begun. *)
Lemma YearFromTime_largest (t y : Z) :
  JsDate.TimeFromYear y <= t → y <= JsDate.YearFromTime t.
Proof.
  intros Hy.
  assert (JsDate.DayFromYear y <= JsDate.Day t) as Hd.
  { unfold JsDate.TimeFromYear, JsDate.Day, JsDate.msPerDay in *.
    set (d := JsDate.DayFromYear y) in *. clearbody d.
    Z.to_euclidean_division_equations. lia. }
  destruct (YearFromTime_spec t) as [_ Hlt].
  destruct (Z.le_gt_cases y (JsDate.YearFromTime t)) as [H|H]; [done|].
  pose proof (DayFromYear_mono (JsDate.YearFromTime t + 1) y) as Hm. lia.
Qed.

Lemma four_digit_year_valid (t : Z) : four_digit_year t → valid_date t.
Proof. unfold four_digit_year, valid_date. lia. Qed.

Lemma four_digit_year_range (t : Z) :
  four_digit_year t → 0 <= JsDate.YearFromTime t <= 9999.
Proof.
  intros Ht. pose proof (YearFromTime_spec t) as Hy.
  assert (-719528 <= JsDate.Day t <= 2932896) as Hd.
  { unfold four_digit_year in Ht. unfold JsDate.Day, JsDate.msPerDay.
    Z.to_euclidean_division_equations. lia. }
  set (y := JsDate.YearFromTime t) in *. clearbody y.
  unfold JsDate.DayFromYear in Hy.
  Z.to_euclidean_division_equations. lia.
Qed.

Lemma is_ymd_intro (y1 y2 y3 y4 m1 m2 d1 d2 : ascii) :
  is_digit y1 = true → is_digit y2 = true → is_digit y3 = true →
  is_digit y4 = true → is_digit m1 = true → is_digit m2 = true →
  is_digit d1 = true → is_digit d2 = true →
  is_ymd (String y1 (String y2 (String y3 (String y4 (String "-"
           (String m1 (String m2 (String "-"
             (String d1 (String d2 EmptyString)))))))))) = true.
Proof.
  intros H1 H2 H3 H4 H5 H6 H7 H8. unfold is_ymd.
  cbn [list_ascii_of_string forallb].
  rewrite H1, H2, H3, H4, H5, H6, H7, H8. reflexivity.
Qed.

(** In the years 0000 to 9999 the date part has the layout
    YYYY-MM-DD. *)
Lemma date_string_ymd (t : Z) :
  four_digit_year t → is_ymd (JsDate.date_string t) = true.
Proof.
  intros Ht. apply four_digit_year_range in Ht.
  unfold JsDate.date_string, JsDate.year_string.
  rewrite (proj2 (Z.leb_le 0 _) (proj1 Ht)), (proj2 (Z.leb_le _ 9999) (proj2 Ht)).
  cbn [andb].
  apply is_ymd_intro; apply digit_char_is_digit.
Qed.

(** Outside them the year is below 0 or above 9999. *)
Lemma expanded_year_range (t : Z) :
  ¬ four_digit_year t → JsDate.YearFromTime t < 0 ∨ 9999 < JsDate.YearFromTime t.
Proof.
  intros Ht. pose proof (YearFromTime_spec t) as Hy.
  assert (JsDate.Day t < -719528 ∨ 2932896 < JsDate.Day t) as Hd.
  { unfold four_digit_year in Ht. unfold JsDate.Day, JsDate.msPerDay.
    Z.to_euclidean_division_equations. lia. }
  set (y := JsDate.YearFromTime t) in *. clearbody y.
  unfold JsDate.DayFromYear in Hy.
  Z.to_euclidean_division_equations. lia.
Qed.

Lemma is_expanded_ymd_intro (sg y1 y2 y3 y4 y5 y6 m1 m2 d1 d2 : ascii) :
  sg = "+"%char ∨ sg = "-"%char →
  is_digit y1 = true → is_digit y2 = true → is_digit y3 = true →
  is_digit y4 = true → is_digit y5 = true → is_digit y6 = true →
  is_digit m1 = true → is_digit m2 = true →
  is_digit d1 = true → is_digit d2 = true →
  is_expanded_ymd
    (String sg (String y1 (String y2 (String y3 (String y4 (String y5 (String y6
       (String "-" (String m1 (String m2 (String "-"
          (String d1 (String d2 EmptyString))))))))))))) = true
  ∧ is_ymd
      (String sg (String y1 (String y2 (String y3 (String y4 (String y5 (String y6
         (String "-" (String m1 (String m2 (String "-"
            (String d1 (String d2 EmptyString))))))))))))) = false.
Proof.
  intros Hs H1 H2 H3 H4 H5 H6 H7 H8 H9 H10. split; [|reflexivity].
  unfold is_expanded_ymd. cbn [list_ascii_of_string forallb].
  rewrite H1, H2, H3, H4, H5, H6, H7, H8, H9, H10.
  by destruct Hs as [-> | ->].
Qed.

(** There the date part carries a sign and a year of six digits, and
    has not the layout YYYY-MM-DD. *)
Lemma date_string_expanded (t : Z) :
  ¬ four_digit_year t →
  is_expanded_ymd (JsDate.date_string t) = true
  ∧ is_ymd (JsDate.date_string t) = false.
Proof.
  intros Ht. apply expanded_year_range in Ht.
  unfold JsDate.date_string, JsDate.year_string.
  assert ((0 <=? JsDate.YearFromTime t) && (JsDate.YearFromTime t <=? 9999) = false)
    as -> by (apply andb_false_iff; rewrite Z.leb_gt, Z.leb_gt; lia).
  destruct (JsDate.YearFromTime t <? 0);
    (apply is_expanded_ymd_intro; [by auto | apply digit_char_is_digit..]).
Qed.

Example getDate_example : getDate 1577959200000 = Normal "2020-01-02".
Proof. reflexivity. Qed.

Example toISOString_example :
  JsDate.toISOString (JsDate.TimeClip 1577959200000) = Normal "2020-01-02T10:00:00.000Z".
Proof. reflexivity. Qed.

Example getDate_leap_day : getDate 951782400000 = Normal "2000-02-29".
Proof. reflexivity. Qed.

Example getDate_before_epoch : getDate (-1) = Normal "1969-12-31".
Proof. reflexivity. Qed.

Example getDate_year_10000 : getDate 253402300800000 = Normal "+010000-01-01".
Proof. reflexivity. Qed.

Example getDate_out_of_range :
  getDate 8640000000000001 = Throw (JError "RangeError" "Invalid time value").
Proof. reflexivity. Qed.

(* ================================================================== *)
(** * The CSV and JSON projections                                     *)
(* ================================================================== *)

Lemma cmapM_Normal {A B} (f : A → Completion B) (g : A → B) (l : list A) :
  Forall (λ x, f x = Normal (g x)) l → cmapM f l = Normal (g <$> l).
Proof.
  induction 1 as [|x l Hx _ IH]; simpl; [done|].
  by rewrite Hx, IH.
Qed.

(** The loop stops at the first record whose callback throws. *)
Lemma cmapM_Throw {A B} (f : A → Completion B) (l1 l2 : list A) (x : A) (e : JsVal) :
  Forall (λ y, ∃ b, f y = Normal b) l1 → f x = Throw e →
  cmapM f (l1 ++ x :: l2) = Throw e.
Proof.
  intros H Hx. induction H as [|y l1 [b Hy] _ IH]; simpl.
  - by rewrite Hx.
  - by rewrite Hy, IH.
Qed.

Lemma csvLine_valid (p : Pwa) : valid_dates p → csvLine p = Normal (csv_row p).
Proof.
  intros [Hc Hu]. unfold csvLine.
  by rewrite (getDate_valid _ Hc), (getDate_valid _ Hu).
Qed.

Lemma jsonPwa_valid (p : Pwa) : valid_dates p → jsonPwa p = Normal (json_object p).
Proof.
  intros [Hc Hu]. unfold jsonPwa.
  by rewrite (getDate_valid _ Hc), (getDate_valid _ Hu).
Qed.

Lemma json_object_keys (p : Pwa) : dom (json_object p) = json_keys.
Proof.
  unfold json_object, json_keys. rewrite !dom_insert_L, dom_empty_L.
  set_solver.
Qed.

Lemma CsvWriter_write_valid (pwas : list Pwa) (s : State) :
  Forall valid_dates pwas →
  CsvWriter_write pwas s =
    (res_csv (csv_header :: (csv_row <$> pwas))
       (setHeader "Content-Type" "text/csv" (record (EvWrite FmtCsv) s)),
     Normal tt).
Proof.
  intros H. unfold CsvWriter_write.
  rewrite (cmapM_Normal csvLine csv_row); [done|].
  eapply Forall_impl; [exact H|]. apply csvLine_valid.
Qed.

Lemma JsonWriter_write_valid (pwas : list Pwa) (s : State) :
  Forall valid_dates pwas →
  JsonWriter_write pwas s =
    (res_json (JArr (JObj <$> (json_object <$> pwas)))
       (setHeader "Content-Type" "application/json" (record (EvWrite FmtJson) s)),
     Normal tt).
Proof.
  intros H. unfold JsonWriter_write.
  rewrite (cmapM_Normal jsonPwa json_object); [done|].
  eapply Forall_impl; [exact H|]. apply jsonPwa_valid.
Qed.

(** A writer that throws has not touched the response. *)
Lemma CsvWriter_write_throws (pwas : list Pwa) (s s' : State) (e : JsVal) :
  CsvWriter_write pwas s = (s', Throw e) → s' = record (EvWrite FmtCsv) s.
Proof.
  unfold CsvWriter_write. destruct (cmapM csvLine pwas); intros [= <- ?]; done.
Qed.

Lemma JsonWriter_write_throws (pwas : list Pwa) (s s' : State) (e : JsVal) :
  JsonWriter_write pwas s = (s', Throw e) → s' = record (EvWrite FmtJson) s.
Proof.
  unfold JsonWriter_write. destruct (cmapM jsonPwa pwas); intros [= <- ?]; done.
Qed.

Lemma valid_dates_cases (p : Pwa) : valid_dates p ∨ ¬ valid_dates p.
Proof.
  unfold valid_dates, valid_date.
  destruct (Z_le_dec (Z.abs (created p)) 8640000000000000);
    destruct (Z_le_dec (Z.abs (updated p)) 8640000000000000); tauto.
Qed.

Lemma Forall_or_Exists_invalid (l : list Pwa) :
  Forall valid_dates l ∨ Exists (λ p, ¬ valid_dates p) l.
Proof.
  induction l as [|p l [IH|IH]]; [by left | |].
  - destruct (valid_dates_cases p); [left | right]; by constructor.
  - right. by apply Exists_cons_tl.
Qed.

Lemma csvLine_invalid (p : Pwa) : ¬ valid_dates p → csvLine p = Throw range_error.
Proof.
  intros H. unfold csvLine.
  destruct (Z_le_dec (Z.abs (created p)) 8640000000000000) as [Hc|Hc].
  - rewrite (getDate_valid _ Hc). cbn [cbind].
    rewrite getDate_invalid; [done|]. intros Hu. by apply H.
  - by rewrite getDate_invalid.
Qed.

Lemma jsonPwa_invalid (p : Pwa) : ¬ valid_dates p → jsonPwa p = Throw range_error.
Proof.
  intros H. unfold jsonPwa.
  destruct (Z_le_dec (Z.abs (created p)) 8640000000000000) as [Hc|Hc].
  - rewrite (getDate_valid _ Hc). cbn [cbind].
    rewrite getDate_invalid; [done|]. intros Hu. by apply H.
  - by rewrite getDate_invalid.
Qed.

(** A loop whose callback can only throw [e] throws [e] as soon as one
    call throws. *)
Lemma cmapM_one_error {A B} (f : A → Completion B) (e : JsVal) (l : list A) :
  (∀ x, (∃ b, f x = Normal b) ∨ f x = Throw e) →
  Exists (λ x, f x = Throw e) l → cmapM f l = Throw e.
Proof.
  intros Hf. induction 1 as [x l Hx | x l _ IH]; cbn.
  - by rewrite Hx.
  - destruct (Hf x) as [[b ->] | ->]; [|done]. cbn. by rewrite IH.
Qed.

Lemma cmapM_csvLine_invalid (l : list Pwa) :
  Exists (λ p, ¬ valid_dates p) l → cmapM csvLine l = Throw range_error.
Proof.
  intros H. apply cmapM_one_error.
  - intros p. destruct (valid_dates_cases p) as [Hv|Hv].
    + left. eexists. by apply csvLine_valid.
    + right. by apply csvLine_invalid.
  - eapply Exists_impl; [exact H|]. apply csvLine_invalid.
Qed.

Lemma cmapM_jsonPwa_invalid (l : list Pwa) :
  Exists (λ p, ¬ valid_dates p) l → cmapM jsonPwa l = Throw range_error.
Proof.
  intros H. apply cmapM_one_error.
  - intros p. destruct (valid_dates_cases p) as [Hv|Hv].
    + left. eexists. by apply jsonPwa_valid.
    + right. by apply jsonPwa_invalid.
  - eapply Exists_impl; [exact H|]. apply jsonPwa_invalid.
Qed.

Lemma dispatch_default (format : option string) :
  format ≠ Some "csv" → format ≠ Some "rss" →
  dispatch (str_or format "json") = FmtJson.
Proof.
  intros Hc Hr.
  destruct format as [[|c f]|]; [reflexivity | | reflexivity].
  change (str_or (Some (String c f)) "json") with (String c f).
  unfold dispatch.
  destruct (String.eqb_spec (String c f) "csv") as [E|_]; [by rewrite E in Hc|].
  destruct (String.eqb_spec (String c f) "rss") as [E|_]; [by rewrite E in Hr|].
  reflexivity.
Qed.

Example dispatch_csv : dispatch (str_or (Some "csv") "json") = FmtCsv.
Proof. reflexivity. Qed.

Example dispatch_rss : dispatch (str_or (Some "rss") "json") = FmtRss.
Proof. reflexivity. Qed.

Example dispatch_upper_case : dispatch (str_or (Some "CSV") "json") = FmtJson.
Proof. reflexivity. Qed.

(* ================================================================== *)
(** * The feed loop                                                    *)
(* ================================================================== *)

Lemma watch_app (a b : list Event) (m : Monitor) :
  watch (a ++ b) m = watch a m ≫= watch b.
Proof.
  revert m. induction a as [|e a IH]; intros m; simpl; [done|].
  destruct (observe m e); simpl; [apply IH | done].
Qed.

(** One render from start to end is accepted by an idle observer that
    expects it. *)
Lemma watch_turn (n t latency : nat) (p : Pwa) (done : list Pwa) :
  watch [EvRenderBegin n p t; EvRenderEnd n (t + latency)] (idle n t done)
  = Some (idle (S n) (t + latency) (done ++ [p])).
Proof.
  simpl. rewrite Nat.eqb_refl, Nat.leb_refl. simpl.
  rewrite Nat.eqb_refl. simpl.
  by rewrite (proj2 (Nat.leb_le t (t + latency)) (Nat.le_add_r t latency)).
Qed.

Lemma watch_log (v : JsVal) (m : Monitor) : watch [EvLog v] m = Some m.
Proof. reflexivity. Qed.

Lemma watch_turn_then (n t latency : nat) (p : Pwa) (done : list Pwa)
    (rest : list Event) :
  watch (EvRenderBegin n p t :: EvRenderEnd n (t + latency) :: rest) (idle n t done)
  = watch rest (idle (S n) (t + latency) (done ++ [p])).
Proof.
  change (EvRenderBegin n p t :: EvRenderEnd n (t + latency) :: rest)
    with ([EvRenderBegin n p t; EvRenderEnd n (t + latency)] ++ rest).
  by rewrite watch_app, watch_turn.
Qed.

Lemma watch_log_then (v : JsVal) (rest : list Event) (m : Monitor) :
  watch (EvLog v :: rest) m = watch rest m.
Proof. reflexivity. Qed.

(** A render that begins before the render before it has ended is not
    accepted. *)
Lemma watch_begin_early (n n' t t' : nat) (p : Pwa) (done : list Pwa)
    (rest : list Event) :
  (t < t')%nat → watch (EvRenderBegin n' p t :: rest) (idle n t' done) = None.
Proof.
  intros H. unfold watch at 1, observe, idle. cbn [in_flight last next].
  by rewrite (proj2 (Nat.leb_gt _ _) H), andb_false_r.
Qed.

(** What the observer has accepted: the numbers of the renders and the
    times only grow. *)
Lemma observe_grows (m m' : Monitor) (e : Event) :
  observe m e = Some m' → (next m ≤ next m')%nat ∧ (last m ≤ last m')%nat.
Proof.
  destruct e as [| | |n p t|n t|]; unfold observe; try (intros [= <-]; lia).
  - destruct (in_flight m); [done|].
    destruct (Nat.eqb_spec n (next m)); [|done].
    destruct (Nat.leb_spec (last m) t); [|done].
    intros [= <-]. cbn. lia.
  - destruct (in_flight m); [|done].
    destruct (Nat.eqb_spec n (next m)); [|done].
    destruct (Nat.leb_spec (last m) t); [|done].
    intros [= <-]. cbn. lia.
Qed.

(** A render that the observer sees begin has a number and a time that
    are not behind the observer's. *)
Lemma watch_begin_bounds (evs : list Event) (m m' : Monitor) (n t : nat) (p : Pwa) :
  watch evs m = Some m' → EvRenderBegin n p t ∈ evs →
  (next m ≤ n)%nat ∧ (last m ≤ t)%nat.
Proof.
  revert m. induction evs as [|e evs IH]; intros m Hw Hin.
  - by apply elem_of_nil in Hin.
  - cbn in Hw. destruct (observe m e) as [m1|] eqn:Ho; [|done].
    apply elem_of_cons in Hin as [<- | Hin].
    + unfold observe in Ho. destruct (in_flight m); [done|].
      destruct (Nat.eqb_spec n (next m)); [|done].
      destruct (Nat.leb_spec (last m) t); [|done]. lia.
    + destruct (IH m1 Hw Hin). apply observe_grows in Ho. lia.
Qed.

(** An accepted trace keeps the renders apart: a render that begins has
    seen the render before it end, and not later than it begins. *)
Lemma watch_awaited (evs : list Event) (m m' : Monitor) (n t : nat) (p : Pwa) :
  watch evs m = Some m' → EvRenderBegin (S n) p t ∈ evs → (next m ≤ n)%nat →
  ∃ t', EvRenderEnd n t' ∈ evs ∧ (t' ≤ t)%nat.
Proof.
  revert m. induction evs as [|e evs IH]; intros m Hw Hin Hn.
  - by apply elem_of_nil in Hin.
  - cbn in Hw. destruct (observe m e) as [m1|] eqn:Ho; [|done].
    apply elem_of_cons in Hin as [<- | Hin].
    + unfold observe in Ho. destruct (in_flight m); [done|].
      destruct (Nat.eqb_spec (S n) (next m)); [lia | done].
    + destruct (le_lt_dec (next m1) n) as [Hle | Hgt].
      * destruct (IH m1 Hw Hin Hle) as (t' & Hin' & Ht').
        exists t'. split; [by apply elem_of_cons; right | done].
      * destruct (watch_begin_bounds evs m1 m' (S n) t p Hw Hin) as [_ Hlast].
        destruct e as [| | |n0 p0 t0|n0 t0|]; unfold observe in Ho;
          try (injection Ho as <-; lia).
        -- destruct (in_flight m); [done|].
           destruct ((n0 =? next m)%nat && (last m <=? t0)%nat); [|done].
           injection Ho as <-. cbn in Hgt. lia.
        -- destruct (in_flight m); [|done].
           destruct (Nat.eqb_spec n0 (next m)) as [->|]; [|done].
           destruct (Nat.leb_spec (last m) t0); [|done].
           injection Ho as <-. cbn in Hgt, Hlast.
           assert (n = next m) as -> by lia.
           exists t0. split; [apply elem_of_cons; by left | done].
Qed.

Lemma trace_turn (p : Pwa) (latency : nat) (s : State) :
  trace (turn p latency s)
  = trace s ++ [EvRenderBegin (rendered s) p (now s);
                EvRenderEnd (rendered s) (now s + latency)].
Proof. unfold turn. simpl. by rewrite <- app_assoc. Qed.

Lemma at_time_now (s : State) : at_time (now s) s = s.
Proof. by destruct s. Qed.

Lemma in_time_le (lo t : nat) (l : list (nat * Item)) : in_time lo l t → (lo ≤ t)%nat.
Proof.
  revert lo. induction l as [|x l IH]; intros lo; cbn; [done|].
  intros [H1 H2]. specialize (IH _ H2). lia.
Qed.

Lemma in_time_later (lo t t' : nat) (l : list (nat * Item)) :
  in_time lo l t → (t ≤ t')%nat → in_time lo l t'.
Proof.
  revert lo. induction l as [|x l IH]; intros lo; cbn; [lia|].
  intros [H1 H2] Ht. split; [done|]. by apply IH.
Qed.

Lemma in_time_snoc (lo t t' : nat) (l : list (nat * Item)) (it : Item) :
  in_time lo l t → (t ≤ t')%nat → in_time lo (l ++ [(t', it)]) t'.
Proof.
  revert lo. induction l as [|x l IH]; intros lo; cbn.
  - intros H Ht. split; lia.
  - intros [H1 H2] Ht. split; [done|]. by apply IH.
Qed.

Lemma sort_by_time_in_time (lo t : nat) (l : list (nat * Item)) :
  in_time lo l t → sort_by_time l = l.
Proof.
  revert lo. induction l as [|x l IH]; intros lo; cbn [sort_by_time in_time]; [done|].
  intros [_ H]. rewrite (IH _ H).
  destruct l as [|y l]; [done|]. cbn [insert_by_time].
  destruct H as [H _]. by rewrite (proj2 (Nat.leb_le _ _) H).
Qed.

(** A feed whose items were added in the order of time, none later than
    [t], holds at [t] the items in the order of the program. *)
Lemma items_at_in_time (lo t : nat) (l : list (nat * Item)) :
  in_time lo l t → items_at t l = l.*2.
Proof.
  intros H. unfold items_at.
  assert (filter (λ x : nat * Item, (x.1 ≤ t)%nat) l = l) as ->.
  { revert lo H. induction l as [|x l IH]; intros lo H; [done|].
    destruct H as [_ H]. rewrite filter_cons_True; [|by apply (in_time_le _ _ l)].
    by rewrite (IH _ H). }
  by rewrite (sort_by_time_in_time lo t).
Qed.

Section Feed.

Context (fromRequest : Request → string → gmap string JsVal).
Context (view_engine : nat → string → RenderArg → nat * (JsVal * JsVal)).
Context (req : Request).

#[local] Abbreviation add := (add_item fromRequest view_engine req).
#[local] Abbreviation answer s p :=
  (view_engine (now s) "pwas/view-rss.hbs" (rss_arg fromRequest req p)).

(** What awaiting the callback of the loop does with one record: the
    code after the [await] runs when the render has ended. *)
Lemma await_add_item {B} (p : Pwa) (k : unit → Fn B) (s : State) :
  await (add p) k s =
    let '(latency, (err, html)) := answer s p in
    if truthy err
    then (console_log err (turn p latency s), Rejected err)
    else k tt (feed_item (rss_item p html) (turn p latency s)).
Proof.
  unfold await at 1. unfold add_item, async, await, renderOnePwaRss, render, rss_arg, turn.
  cbn [arg_pwa].
  destruct (view_engine _ _ _) as [latency [err html]].
  destruct (truthy err); cbn;
    rewrite !(Nat.max_r (now s) (now s + latency)) by lia; done.
Qed.

(** A call of the callback that is not awaited leaves the clock of the
    caller where it is. *)
Lemma add_item_now (p : Pwa) (s : State) : now (add p s).1 = now s.
Proof. unfold add_item, async. by destruct (await _ _ s). Qed.

(** The loop leaves the response alone, never stays pending and does
    not end before it began. *)
Lemma for_loop_frame (l : list Pwa) (s : State) :
  let r := for_loop l add s in
  headers r.1 = headers s ∧ statusCode r.1 = statusCode s ∧ sent r.1 = sent s
  ∧ r.2 ≠ Pending ∧ (now s ≤ now r.1)%nat.
Proof.
  revert s. induction l as [|p l IH]; intros s; [done|].
  cbn [for_loop]. rewrite await_add_item.
  destruct (answer s p) as [latency [err html]].
  destruct (truthy err); [cbn; repeat split; [done | lia]|].
  destruct (IH (feed_item (rss_item p html) (turn p latency s)))
    as (Hh & Hc & Hs & Hp & Hn).
  cbn in Hn. repeat split; [done..|lia].
Qed.

(** The items are added in the order of time. *)
Lemma for_loop_in_time (l : list Pwa) (s : State) (lo : nat) :
  in_time lo (added s) (now s) →
  in_time lo (added (for_loop l add s).1) (now (for_loop l add s).1).
Proof.
  revert s. induction l as [|p l IH]; intros s H; [done|].
  cbn [for_loop]. rewrite await_add_item.
  destruct (answer s p) as [latency [err html]].
  destruct (truthy err).
  - cbn. apply (in_time_later _ (now s)); [done | lia].
  - apply IH. cbn. apply (in_time_snoc _ (now s)); [done | lia].
Qed.

(** The renders take their turns in the order of the records: the
    events of the loop lead an observer from idle to idle, through
    the first [k] records, and the feed has received an item for each
    record before the one that failed. *)
Lemma for_loop_turns (l : list Pwa) (s : State) (done : list Pwa) :
  ∃ (k : nat) (evs : list Event) (its : list Item),
    trace (for_loop l add s).1 = trace s ++ evs
    ∧ watch evs (idle (rendered s) (now s) done)
      = Some (idle (rendered s + k) (now (for_loop l add s).1) (done ++ take k l))
    ∧ items (for_loop l add s).1 = items s ++ its
    ∧ match (for_loop l add s).2 with
      | Fulfilled _ =>
          k = List.length l ∧ Forall2 (λ p it, ∃ html, it = rss_item p html) l its
      | Rejected e =>
          (0 < k ≤ List.length l)%nat
          ∧ Forall2 (λ p it, ∃ html, it = rss_item p html) (take (k - 1) l) its
      | Pending => False
      end.
Proof.
  revert s done. induction l as [|p l IH]; intros s done.
  - exists 0%nat, [], []. cbn. rewrite !app_nil_r, Nat.add_0_r.
    repeat split; constructor.
  - cbn [for_loop]. rewrite await_add_item.
    destruct (answer s p) as [latency [err html]].
    destruct (truthy err).
    + exists 1%nat,
        [EvRenderBegin (rendered s) p (now s);
         EvRenderEnd (rendered s) (now s + latency); EvLog err], [].
      cbn [fst snd]. repeat split.
      * unfold console_log, record. cbn [trace]. rewrite trace_turn.
        by rewrite <- app_assoc.
      * change [EvRenderBegin (rendered s) p (now s);
                EvRenderEnd (rendered s) (now s + latency); EvLog err]
          with ([EvRenderBegin (rendered s) p (now s);
                 EvRenderEnd (rendered s) (now s + latency)] ++ [EvLog err]).
        rewrite watch_app, watch_turn. cbn.
        by rewrite Nat.add_1_r.
      * cbn. by rewrite app_nil_r.
      * lia.
      * cbn [List.length]. lia.
      * constructor.
    + set (s1 := feed_item (rss_item p html) (turn p latency s)).
      destruct (IH s1 (done ++ [p])) as (k & evs & its & Ht & Hw & Hi & Hr).
      exists (S k),
        ([EvRenderBegin (rendered s) p (now s);
          EvRenderEnd (rendered s) (now s + latency)] ++ evs),
        (rss_item p html :: its).
      repeat split.
      * rewrite Ht. subst s1. unfold feed_item. cbn [trace].
        rewrite trace_turn. by rewrite <- app_assoc.
      * rewrite watch_app, watch_turn. cbn [mbind option_bind].
        change (rendered s1) with (S (rendered s)) in Hw.
        change (now s1) with (now s + latency)%nat in Hw.
        rewrite Hw. cbn [take]. rewrite <- app_assoc.
        by replace (rendered s + S k)%nat with (S (rendered s) + k)%nat by lia.
      * rewrite Hi. subst s1. unfold items, feed_item, turn. cbn [added at_time render_ends render_begins].
        rewrite fmap_app. cbn. by rewrite <- app_assoc.
      * destruct (for_loop l add s1).2 as [[]|e|]; [| |done].
        -- destruct Hr as [-> Hr]. split; [done|]. constructor; eauto.
        -- destruct Hr as [Hk Hr]. split; [cbn [List.length]; lia|].
           replace (S k - 1)%nat with (S (k - 1)) by lia.
           cbn [take]. constructor; eauto.
Qed.

(** The loop is fulfilled when every record renders. *)
Lemma for_loop_fulfilled (l : list Pwa) (s : State) :
  Forall (λ p, renders_well view_engine (rss_arg fromRequest req p)) l →
  (for_loop l add s).2 = Fulfilled tt.
Proof.
  intros H. revert s. induction H as [|p l Hp _ IH]; intros s; [done|].
  cbn [for_loop]. rewrite await_add_item.
  specialize (Hp (now s)).
  destruct (answer s p) as [latency [err html]]. cbn in Hp. rewrite Hp.
  apply IH.
Qed.

(** The loop is rejected when some record does not render. *)
Lemma for_loop_rejected (l : list Pwa) (s : State) :
  Exists (λ p, render_fails view_engine (rss_arg fromRequest req p)) l →
  ∃ e, (for_loop l add s).2 = Rejected e.
Proof.
  intros H. revert s. induction l as [|p l IH]; intros s.
  - inversion H.
  - cbn [for_loop]. rewrite await_add_item.
    destruct (answer s p) as [latency [err html]] eqn:Ha.
    destruct (truthy err) eqn:Ht; [by eexists|].
    apply Exists_cons in H as [Hp | Hl].
    + specialize (Hp (now s)). rewrite Ha in Hp. cbn in Hp. congruence.
    + apply (IH Hl).
Qed.

(** The call of [asyncForEach] seen by its caller: the state which the
    loop leaves, at the caller's own time, and a promise which settles
    as the loop ends, when it ends. *)
Lemma asyncForEach_call (l : list Pwa) (s : State) :
  asyncForEach l add s
  = (at_time (now s) (for_loop l add s).1,
     {| due := now (for_loop l add s).1; outcome := (for_loop l add s).2 |}).
Proof. unfold asyncForEach, async. by destruct (for_loop l add s). Qed.

(** Awaiting [asyncForEach]: the code after the [await] runs in the
    state and at the time in which the loop ends. *)
Lemma await_asyncForEach {B} (l : list Pwa) (k : unit → Fn B) (s : State) :
  await (asyncForEach l add) k s =
    match (for_loop l add s).2 with
    | Fulfilled a => k a (for_loop l add s).1
    | Rejected e => ((for_loop l add s).1, Rejected e)
    | Pending => (at_time (now s) (for_loop l add s).1, Pending)
    end.
Proof.
  unfold await. rewrite asyncForEach_call. cbn [due outcome].
  destruct (for_loop_frame l s) as (_ & _ & _ & _ & Hn).
  change (now (at_time (now s) (for_loop l add s).1)) with (now s).
  rewrite (Nat.max_r _ _ Hn).
  change (at_time (now (for_loop l add s).1) (at_time (now s) (for_loop l add s).1))
    with (at_time (now (for_loop l add s).1) (for_loop l add s).1).
  by rewrite at_time_now.
Qed.

(** Without the [await] the renders would overlap.  After a call of
    the callback that is not awaited, and whose render takes time, the
    caller is still at the time of the call: the next render begins
    before this one has ended, which the observer does not accept, and a
    feed serialised then is without the item. *)
Lemma unawaited_renders_overlap (p q : Pwa) (s : State) :
  (0 < (answer s p).1)%nat →
  let s1 := (detached (add p) s).1 in
  let s2 := (detached (add q) s1).1 in
  now s1 = now s
  ∧ (in_time 0 (added s) (now s) → items_at (now s1) (added s1) = items s)
  ∧ ∃ evs, trace s2 = trace s ++ evs
           ∧ watch evs (idle (rendered s) (now s) []) = None.
Proof.
  intros Hl. cbv zeta. split; [apply add_item_now|]. split.
  - intros Hin. unfold detached, add_item, async, await, renderOnePwaRss, render, rss_arg.
    cbn [arg_pwa fst]. destruct (view_engine _ _ _) as [latency [err html]].
    cbn in Hl. unfold items_at, items.
    destruct (truthy err); cbn.
    + exact (items_at_in_time 0 _ _ Hin).
    + rewrite filter_app, filter_cons_False, filter_nil, app_nil_r by (cbn; lia).
      exact (items_at_in_time 0 _ _ Hin).
  - unfold detached, add_item, async, await, renderOnePwaRss, render, rss_arg.
    cbn [arg_pwa fst].
    destruct (view_engine (now s) _ _) as [latency [err html]].
    cbn in Hl.
    destruct (truthy err); cbn;
      destruct (view_engine _ _ _) as [latency' [err' html']];
      destruct (truthy err'); cbn;
      rewrite <- ?app_assoc; (eexists; split; [reflexivity|]); cbn [app];
      rewrite watch_turn_then, ?watch_log_then;
      apply watch_begin_early; lia.
Qed.

End Feed.

(* ================================================================== *)
(** * The writers seen from the route                                  *)
(* ================================================================== *)

Lemma cache_header_text :
  "public, max-age=" +:+ Z_to_string CACHE_CONTROL_EXPIRES = cache_header.
Proof. reflexivity. Qed.

Lemma in_record_order_guid (l : list Pwa) (its : list Item) :
  in_record_order l its → guid <$> its = id <$> l.
Proof.
  induction 1 as [|p it l its [html ->] _ IH]; [done|].
  cbn. by rewrite IH.
Qed.

Lemma in_record_order_date (l : list Pwa) (its : list Item) :
  in_record_order l its → date <$> its = created <$> l.
Proof.
  induction 1 as [|p it l its [html ->] _ IH]; [done|].
  cbn. by rewrite IH.
Qed.

Section Writers.

Context (fromRequest : Request → string → gmap string JsVal).
Context (view_engine : nat → string → RenderArg → nat * (JsVal * JsVal)).
Context (today : Z) (xml : Feed → string).

#[local] Abbreviation rss_write := (RssWriter_write fromRequest view_engine today xml).
#[local] Abbreviation write := (write_result fromRequest view_engine today xml).
#[local] Abbreviation loop req l := (for_loop l (add_item fromRequest view_engine req)).

(** [RssWriter.write] returns at once: the caller goes on at its own
    time. *)
Lemma RssWriter_write_now (req : Request) (l : list Pwa) (s : State) :
  now (rss_write req l s).1 = now s.
Proof.
  unfold RssWriter_write, detached, start, async. cbn [fst].
  by destruct (await _ _ _).
Qed.

(** [RssWriter.write] returns normally whatever happens to the feed.
    Either the loop was rejected and the response is as it was, or
    every record was rendered and the feed went out with one item for
    each record. *)
Lemma RssWriter_write_outcome (req : Request) (l : list Pwa) (s : State) :
  (rss_write req l s).2 = Normal tt
  ∧ ((∃ e, (loop req l (new_RSS (record (EvWrite FmtRss) s))).2 = Rejected e
        ∧ headers (rss_write req l s).1 = headers s
        ∧ statusCode (rss_write req l s).1 = statusCode s
        ∧ sent (rss_write req l s).1 = sent s)
     ∨ (∃ its, (loop req l (new_RSS (record (EvWrite FmtRss) s))).2 = Fulfilled tt
        ∧ in_record_order l its
        ∧ headers (rss_write req l s).1
          = <["Content-Type" := "application/rss+xml"]> (headers s)
        ∧ statusCode (rss_write req l s).1 = 200
        ∧ sent (rss_write req l s).1 = sent s ++ [feed_response today xml (headers s) its])).
Proof.
  split; [done|].
  unfold RssWriter_write, detached, start, async. cbn [fst].
  rewrite await_asyncForEach.
  set (s1 := new_RSS (record (EvWrite FmtRss) s)).
  destruct (for_loop_frame fromRequest view_engine req l s1) as (Hh & Hc & Hs & Hp & _).
  destruct (for_loop_turns fromRequest view_engine req l s1 [])
    as (k & evs & its & Ht & Hw & Hi & Hr).
  pose proof (for_loop_in_time fromRequest view_engine req l s1 0) as Hin.
  destruct (loop req l s1) as [s2 [[]|e|]]; cbn [fst snd] in *.
  - right. exists its. destruct Hr as [-> Hr].
    split; [done|]. split; [exact Hr|].
    cbv zeta.
    change (items_at (now (setHeader "Content-Type" "application/rss+xml" s2))
              (added (setHeader "Content-Type" "application/rss+xml" s2)))
      with (items_at (now s2) (added s2)).
    rewrite (items_at_in_time 0) by (apply Hin; cbn; lia).
    fold (items s2). rewrite Hi.
    unfold res_send, write_body, status, setHeader. cbn.
    rewrite Hh, Hs. done.
  - left. exists e.
    change (headers (at_time (now s1) s2)) with (headers s2).
    change (statusCode (at_time (now s1) s2)) with (statusCode s2).
    change (sent (at_time (now s1) s2)) with (sent s2).
    by rewrite Hh, Hc, Hs.
  - done.
Qed.

(** The events of [RssWriter.write]: the renders take their turns, in
    the order of the records. *)
Lemma RssWriter_write_trace (req : Request) (l : list Pwa) (s : State) :
  ∃ (k : nat) (evs : list Event),
    trace (rss_write req l s).1 = trace s ++ EvWrite FmtRss :: evs
    ∧ watch evs (idle (rendered s) (now s) [])
      = Some (idle (rendered s + k)
                (now (loop req l (new_RSS (record (EvWrite FmtRss) s))).1) (take k l))
    ∧ (k ≤ List.length l)%nat
    ∧ ((loop req l (new_RSS (record (EvWrite FmtRss) s))).2 = Fulfilled tt
       → k = List.length l).
Proof.
  unfold RssWriter_write, detached, start, async. cbn [fst].
  rewrite await_asyncForEach.
  set (s1 := new_RSS (record (EvWrite FmtRss) s)).
  destruct (for_loop_turns fromRequest view_engine req l s1 [])
    as (k & evs & its & Ht & Hw & Hi & Hr).
  exists k, evs.
  destruct (loop req l s1) as [s2 [[]|e|]]; cbn [fst snd] in *.
  - destruct Hr as [-> Hr]. cbn. rewrite Ht. cbn. rewrite <- app_assoc.
    repeat split; [exact Hw | lia].
  - change (trace (at_time (now s1) s2)) with (trace s2).
    rewrite Ht. cbn. rewrite <- app_assoc.
    repeat split; [exact Hw | lia | done].
  - done.
Qed.

End Writers.

(* ================================================================== *)
(** * The route                                                        *)
(* ================================================================== *)

Lemma single_present (req : Request) (key : string) :
  params_id req = Some key → key ≠ "" → single req = Some key.
Proof. unfold single. intros -> H. by destruct key. Qed.

Lemma single_absent (req : Request) : params_id req = None → single req = None.
Proof. unfold single. by intros ->. Qed.

Section Answers.

Context (find : string → Outcome Pwa).
Context (list_pwas : JsNum → JsNum → string → Outcome ListResult).
Context (fromRequest : Request → string → gmap string JsVal).
Context (view_engine : nat → string → RenderArg → nat * (JsVal * JsVal)).
Context (today : Z) (xml : Feed → string).

#[local] Abbreviation answer := (respond find list_pwas fromRequest view_engine today xml).
#[local] Abbreviation write := (write_result fromRequest view_engine today xml).
#[local] Abbreviation rss_write := (RssWriter_write fromRequest view_engine today xml).
#[local] Abbreviation format_of req := (str_or (q_format (query req)) "json").
#[local] Abbreviation sort_of req := (str_or (q_sort (query req)) "newest").

(** The writers return at the time at which they were called. *)
Lemma write_result_now (req : Request) (fmt : string) (result : ListResult)
    (s : State) :
  now (write req fmt result s).1 = now s.
Proof.
  unfold write_result. destruct (dispatch fmt).
  - unfold CsvWriter_write. by destruct (cmapM csvLine (pwas result)).
  - apply RssWriter_write_now.
  - unfold JsonWriter_write. by destruct (cmapM jsonPwa (pwas result)).
Qed.

(** The promise chain of the route behind a lookup that is fulfilled at
    once: the writer runs, and the [catch] if the writer throws. *)
Lemma chain_fulfilled (w : State → State * Completion unit) (s : State) :
  now (w s).1 = now s →
  (let '(s', pr) :=
     match w (at_time (now s `max` now s) s) with
     | (s'', Normal b) =>
         (at_time (now s) s'', {| due := (now s `max` now s)%nat; outcome := Fulfilled b |})
     | (s'', Throw e) =>
         (at_time (now s) s'', {| due := (now s `max` now s)%nat; outcome := Rejected e |})
     end in
   match outcome pr with
   | Rejected e =>
       match on_error e (at_time (now s' `max` due pr) s') with
       | (s'', Normal b) =>
           (at_time (now s') s'',
            {| due := (now s' `max` due pr)%nat; outcome := Fulfilled b |})
       | (s'', Throw e') =>
           (at_time (now s') s'',
            {| due := (now s' `max` due pr)%nat; outcome := Rejected e' |})
       end
   | _ => (s', pr)
   end).1 = settle_write (w s).
Proof.
  rewrite Nat.max_id, at_time_now. intros Hn.
  destruct (w s) as [s'' [[]|e]]; cbn [fst] in Hn; cbn.
  - by rewrite <- Hn, at_time_now.
  - rewrite Nat.max_id. destruct s''; cbn in *. by subst.
Qed.

(** A failed lookup is answered on the spot. *)
Lemma respond_not_found (req : Request) (key : string) (err : JsVal) :
  single req = Some key → find key = Rejects err →
  answer req = res_json err (status 404 (console_log err (record (EvFind key) prepared))).
Proof.
  intros Hs Hf. unfold respond, get, catch_, then_, lookup.
  rewrite cache_header_text. fold prepared. by rewrite Hs, Hf.
Qed.

(** A failed listing goes to the [catch] of the route. *)
Lemma respond_list_rejected (req : Request) (err : JsVal) :
  single req = None →
  list_pwas (parse_skip req) (parse_limit req) (sort_of req) = Rejects err →
  answer req =
    (on_error err
       (record (EvList (parse_skip req) (parse_limit req) (sort_of req)) prepared)).1.
Proof.
  intros Hs Hl. unfold respond, get, catch_, then_, lookup.
  rewrite cache_header_text. fold prepared. by rewrite Hs, Hl.
Qed.

(** A record that is found is written as a list of one. *)
Lemma respond_found (req : Request) (key : string) (p : Pwa) :
  single req = Some key → find key = Resolves p →
  answer req =
    settle_write (write req (format_of req) {| pwas := [p] |}
                    (record (EvFind key) prepared)).
Proof.
  intros Hs Hf. unfold respond, get, catch_, then_, lookup.
  rewrite cache_header_text. fold prepared. rewrite Hs, Hf. cbn [settle due outcome].
  apply (chain_fulfilled (write req (format_of req) {| pwas := [p] |})).
  apply write_result_now.
Qed.

(** So is a listing. *)
Lemma respond_listed (req : Request) (result : ListResult) :
  single req = None →
  list_pwas (parse_skip req) (parse_limit req) (sort_of req) = Resolves result →
  answer req =
    settle_write (write req (format_of req) result
                    (record (EvList (parse_skip req) (parse_limit req) (sort_of req))
                       prepared)).
Proof.
  intros Hs Hl. unfold respond, get, catch_, then_, lookup.
  rewrite cache_header_text. fold prepared. rewrite Hs, Hl. cbn [settle adopt due outcome].
  apply (chain_fulfilled (write req (format_of req) result)).
  apply write_result_now.
Qed.

(** The four ways a request can go. *)
Lemma respond_cases (req : Request) :
  (∃ key err, single req = Some key ∧ find key = Rejects err)
  ∨ (∃ err, single req = None
       ∧ list_pwas (parse_skip req) (parse_limit req) (sort_of req) = Rejects err)
  ∨ (∃ key p, single req = Some key ∧ find key = Resolves p)
  ∨ (∃ result, single req = None
       ∧ list_pwas (parse_skip req) (parse_limit req) (sort_of req) = Resolves result).
Proof.
  destruct (single req) as [key|].
  - destruct (find key) as [p|err] eqn:Hf.
    + right. right. left. by exists key, p.
    + left. by exists key, err.
  - destruct (list_pwas (parse_skip req) (parse_limit req) (sort_of req))
      as [result|err] eqn:Hl.
    + right. right. right. by exists result.
    + right. left. by exists err.
Qed.

(** A writer sends at most one response, with the headers of the route
    and its own content type, and sends none when it throws. *)
Lemma write_result_effect (req : Request) (fmt : string) (result : ListResult)
    (s : State) :
  ∃ ws : list Sent,
    sent (write req fmt result s).1 = sent s ++ ws
    ∧ (ws = []
       ∨ ∃ w, ws = [w] ∧ (write req fmt result s).2 = Normal tt
              ∧ ∀ k, k ≠ "Content-Type" → sent_headers w !! k = headers s !! k)
    ∧ (∀ k, k ≠ "Content-Type" →
         headers (write req fmt result s).1 !! k = headers s !! k).
Proof.
  unfold write_result. destruct (dispatch fmt).
  - unfold CsvWriter_write. destruct (cmapM csvLine (pwas result)) as [csv|e].
    + eexists [_]. cbn. split; [done|]. split.
      * right. eexists. split; [done|]. split; [done|].
        intros k Hk. cbn. by rewrite lookup_insert_ne.
      * intros k Hk. by rewrite lookup_insert_ne.
    + exists []. cbn. rewrite app_nil_r. auto.
  - destruct (RssWriter_write_outcome fromRequest view_engine today xml req
                (pwas result) s) as [Hn [(e & _ & Hh & _ & Hs) | (its & _ & _ & Hh & _ & Hs)]].
    + exists []. rewrite app_nil_r. split; [done|]. split; [auto|].
      intros k _. by rewrite Hh.
    + eexists [_]. split; [exact Hs|]. split.
      * right. eexists. split; [done|]. split; [done|].
        intros k Hk. cbn. by rewrite lookup_insert_ne.
      * intros k Hk. rewrite Hh. by rewrite lookup_insert_ne.
  - unfold JsonWriter_write. destruct (cmapM jsonPwa (pwas result)) as [l|e].
    + eexists [_]. cbn. split; [done|]. split.
      * right. eexists. split; [done|]. split; [done|].
        intros k Hk. cbn. by rewrite lookup_insert_ne.
      * intros k Hk. by rewrite lookup_insert_ne.
    + exists []. cbn. rewrite app_nil_r. auto.
Qed.

(** Writer and [catch] together send at most one response. *)
Lemma settle_write_effect (req : Request) (fmt : string) (result : ListResult)
    (s : State) :
  ∃ ws : list Sent,
    sent (settle_write (write req fmt result s)) = sent s ++ ws
    ∧ (List.length ws ≤ 1)%nat
    ∧ Forall (λ w, ∀ k, k ≠ "Content-Type" → sent_headers w !! k = headers s !! k) ws
    ∧ (∀ k, k ≠ "Content-Type" →
         headers (settle_write (write req fmt result s)) !! k = headers s !! k).
Proof.
  destruct (write_result_effect req fmt result s) as (ws & Hs & Hw & Hh).
  destruct (write req fmt result s) as [s' [[]|e]]; cbn [fst snd settle_write] in *.
  - exists ws. split; [done|].
    destruct Hw as [-> | (w & -> & _ & Hk)]; cbn; repeat split; auto.
  - destruct Hw as [-> | (w & _ & Hn & _)]; [|done].
    rewrite app_nil_r in Hs.
    exists [error_response 500 (headers s') e]. cbn. rewrite Hs.
    repeat split; auto.
Qed.

(** The events of a request only ever extend the trace. *)
Lemma settle_write_trace (req : Request) (fmt : string) (result : ListResult)
    (s : State) :
  ∃ evs, trace (settle_write (write req fmt result s)) = trace s ++ evs.
Proof.
  unfold write_result. destruct (dispatch fmt).
  - unfold CsvWriter_write. destruct (cmapM csvLine (pwas result)); cbn.
    + by eexists.
    + rewrite <- app_assoc. by eexists.
  - destruct (RssWriter_write_outcome fromRequest view_engine today xml req
                (pwas result) s) as [Hn _].
    destruct (RssWriter_write_trace fromRequest view_engine today xml req
                (pwas result) s) as (k & evs & Ht & _).
    destruct (rss_write req (pwas result) s) as [s' c]. cbn in Hn, Ht. subst c.
    cbn. by eexists.
  - unfold JsonWriter_write. destruct (cmapM jsonPwa (pwas result)); cbn.
    + by eexists.
    + rewrite <- app_assoc. by eexists.
Qed.

Lemma prepared_cached : cached prepared.
Proof. split; [reflexivity | constructor]. Qed.

Lemma record_cached (e : Event) (s : State) : cached s → cached (record e s).
Proof. done. Qed.

Lemma on_error_cached (err : JsVal) (s : State) : cached s → cached (on_error err s).1.
Proof.
  intros [Hh Hs]. split; [done|]. cbn.
  apply Forall_app. split; [done|]. by constructor.
Qed.

Lemma settle_write_cached (req : Request) (fmt : string) (result : ListResult)
    (s : State) :
  cached s → cached (settle_write (write req fmt result s)).
Proof.
  intros [Hh Hs].
  destruct (settle_write_effect req fmt result s) as (ws & Hw & _ & Hk & Hf).
  split.
  - by rewrite Hf.
  - rewrite Hw. apply Forall_app. split; [done|].
    eapply Forall_impl; [exact Hk|]. intros w H. cbn in H. by rewrite H.
Qed.

(** The arguments of the listing call are the parsed query
    parameters. *)
Lemma listing_call (req : Request) :
  single req = None →
  ∃ rest, trace (answer req)
          = EvList (parse_skip req) (parse_limit req) (sort_of req) :: rest.
Proof.
  intros Hs.
  destruct (list_pwas (parse_skip req) (parse_limit req) (sort_of req))
    as [result|err] eqn:Hl.
  - rewrite (respond_listed req result Hs Hl).
    destruct (settle_write_trace req (format_of req) result
                (record (EvList (parse_skip req) (parse_limit req) (sort_of req))
                   prepared)) as [evs ->].
    by eexists.
  - rewrite (respond_list_rejected req err Hs Hl). by eexists.
Qed.

(** Every request leaves at most one response, and the header of the
    route is on it. *)
Lemma respond_cached (req : Request) : cached (answer req).
Proof.
  destruct (respond_cases req)
    as [(key & err & Hs & Hf) | [(err & Hs & Hl) | [(key & p & Hs & Hf) | (result & Hs & Hl)]]].
  - rewrite (respond_not_found req key err Hs Hf).
    split; [reflexivity|]. repeat constructor.
  - rewrite (respond_list_rejected req err Hs Hl).
    apply on_error_cached, record_cached, prepared_cached.
  - rewrite (respond_found req key p Hs Hf).
    apply settle_write_cached, record_cached, prepared_cached.
  - rewrite (respond_listed req result Hs Hl).
    apply settle_write_cached, record_cached, prepared_cached.
Qed.

Lemma respond_at_most_once (req : Request) : (List.length (sent (answer req)) ≤ 1)%nat.
Proof.
  destruct (respond_cases req)
    as [(key & err & Hs & Hf) | [(err & Hs & Hl) | [(key & p & Hs & Hf) | (result & Hs & Hl)]]].
  - by rewrite (respond_not_found req key err Hs Hf).
  - by rewrite (respond_list_rejected req err Hs Hl).
  - rewrite (respond_found req key p Hs Hf).
    destruct (settle_write_effect req (format_of req) {| pwas := [p] |}
                (record (EvFind key) prepared)) as (ws & -> & Hn & _).
    done.
  - rewrite (respond_listed req result Hs Hl).
    destruct (settle_write_effect req (format_of req) result
                (record (EvList (parse_skip req) (parse_limit req) (sort_of req))
                   prepared)) as (ws & -> & Hn & _).
    done.
Qed.

(** Outside the RSS format every request is answered exactly once. *)
Lemma respond_once_outside_rss (req : Request) :
  dispatch (format_of req) ≠ FmtRss → List.length (sent (answer req)) = 1%nat.
Proof.
  intros Hd.
  assert (∀ result s, sent s = [] →
            List.length (sent (settle_write (write req (format_of req) result s))) = 1%nat)
    as Hw.
  { intros result s Hs. unfold write_result.
    destruct (dispatch (format_of req)); [|done|].
    - unfold CsvWriter_write. destruct (cmapM csvLine (pwas result)); cbn; by rewrite Hs.
    - unfold JsonWriter_write. destruct (cmapM jsonPwa (pwas result)); cbn; by rewrite Hs. }
  destruct (respond_cases req)
    as [(key & err & Hs & Hf) | [(err & Hs & Hl) | [(key & p & Hs & Hf) | (result & Hs & Hl)]]].
  - by rewrite (respond_not_found req key err Hs Hf).
  - by rewrite (respond_list_rejected req err Hs Hl).
  - rewrite (respond_found req key p Hs Hf). by apply Hw.
  - rewrite (respond_listed req result Hs Hl). by apply Hw.
Qed.

(** So is every RSS request whose records all render. *)
Lemma respond_once_when_rendered (req : Request) :
  (∀ p, renders_well view_engine (rss_arg fromRequest req p)) →
  List.length (sent (answer req)) = 1%nat.
Proof.
  intros Hall.
  assert (∀ result s, sent s = [] →
            List.length (sent (settle_write (write req (format_of req) result s))) = 1%nat)
    as Hw.
  { intros result s Hs. unfold write_result.
    destruct (dispatch (format_of req)).
    - unfold CsvWriter_write. destruct (cmapM csvLine (pwas result)); cbn; by rewrite Hs.
    - destruct (RssWriter_write_outcome fromRequest view_engine today xml req
                  (pwas result) s) as [Hn [(e & He & _) | (its & _ & _ & _ & _ & Hsent)]].
      + rewrite (for_loop_fulfilled fromRequest view_engine req (pwas result)) in He;
          [done|]. apply Forall_forall. auto.
      + destruct (rss_write req (pwas result) s) as [s' c]. cbn in *. subst c.
        cbn. by rewrite Hsent, Hs.
    - unfold JsonWriter_write. destruct (cmapM jsonPwa (pwas result)); cbn; by rewrite Hs. }
  destruct (respond_cases req)
    as [(key & err & Hs & Hf) | [(err & Hs & Hl) | [(key & p & Hs & Hf) | (result & Hs & Hl)]]].
  - by rewrite (respond_not_found req key err Hs Hf).
  - by rewrite (respond_list_rejected req err Hs Hl).
  - rewrite (respond_found req key p Hs Hf). by apply Hw.
  - rewrite (respond_listed req result Hs Hl). by apply Hw.
Qed.

(** C2 (the code departs from it).  When a record of an RSS listing
    fails to render, the rejection stays inside [RssWriter.write]: the
    route writes no response at all, so no 500 either, and the status
    of the response is still the initial 200. *)
Theorem rss_render_failure_no_500 (req : Request) (result : ListResult) :
  single req = None →
  list_pwas (parse_skip req) (parse_limit req) (sort_of req) = Resolves result →
  dispatch (format_of req) = FmtRss →
  Exists (λ p, render_fails view_engine (rss_arg fromRequest req p)) (pwas result) →
  sent (answer req) = [] ∧ statusCode (answer req) = 200.
Proof.
  intros Hs Hl Hd Hx.
  rewrite (respond_listed req result Hs Hl). unfold write_result. rewrite Hd.
  set (s := record _ prepared).
  destruct (RssWriter_write_outcome fromRequest view_engine today xml req
              (pwas result) s) as [Hn [(e & _ & _ & Hc & Hsent) | (its & Hf & _)]].
  - destruct (rss_write req (pwas result) s) as [s' c]. cbn in *. subst c.
    cbn. by rewrite Hc, Hsent.
  - destruct (for_loop_rejected fromRequest view_engine req (pwas result)
                (new_RSS (record (EvWrite FmtRss) s)) Hx) as [e He].
    congruence.
Qed.

(** C3.  Whatever time the template engine takes for each record, the
    renders of [RssWriter.write] take their turns.  The events of the
    writer, each with its time, lead an observer, which rejects a render
    that begins before the render before it has ended, through the first
    [k] records in their order; and every render of the writer but its
    first begins when the render before it has ended, not earlier.  A
    feed that goes out has one item for each record, in the order of
    the records, and a feed goes out when every record renders. *)
Theorem renders_take_turns (req : Request) (l : list Pwa) (s : State) :
  ∃ (k : nat) (evs : list Event) (t_end : nat),
    trace (rss_write req l s).1 = trace s ++ EvWrite FmtRss :: evs
    ∧ watch evs (idle (rendered s) (now s) [])
      = Some (idle (rendered s + k) t_end (take k l))
    ∧ (∀ n p t, EvRenderBegin (S n) p t ∈ evs → (rendered s ≤ n)%nat →
         ∃ t', EvRenderEnd n t' ∈ evs ∧ (t' ≤ t)%nat)
    ∧ (∀ w, w ∈ sent (rss_write req l s).1 →
         w ∈ sent s
         ∨ (k = List.length l
            ∧ ∃ its, w = feed_response today xml (headers s) its
                     ∧ in_record_order l its
                     ∧ guid <$> its = id <$> l))
    ∧ (Forall (λ p, renders_well view_engine (rss_arg fromRequest req p)) l →
         k = List.length l
         ∧ ∃ its, in_record_order l its
                  ∧ sent (rss_write req l s).1
                    = sent s ++ [feed_response today xml (headers s) its]).
Proof.
  destruct (RssWriter_write_trace fromRequest view_engine today xml req l s)
    as (k & evs & Ht & Hw & Hk & Hful).
  destruct (RssWriter_write_outcome fromRequest view_engine today xml req l s)
    as [_ Hout].
  exists k, evs. eexists. split; [exact Ht|]. split; [exact Hw|]. split; [|split].
  - intros n p t Hin Hn. by apply (watch_awaited evs _ _ n t p Hw).
  - intros w Hin. destruct Hout as [(e & _ & _ & _ & Hs) | (its & Hf & Ho & _ & _ & Hs)].
    + left. by rewrite <- Hs.
    + rewrite Hs in Hin. apply elem_of_app in Hin as [Hin | Hin]; [by left|].
      right. split; [by apply Hful|].
      exists its. apply list_elem_of_singleton in Hin.
      split; [done|]. split; [done|]. by apply in_record_order_guid.
  - intros Hall.
    pose proof (for_loop_fulfilled fromRequest view_engine req l
                  (new_RSS (record (EvWrite FmtRss) s)) Hall) as Hf.
    split; [by apply Hful|].
    destruct Hout as [(e & He & _) | (its & _ & Ho & _ & _ & Hs)]; [congruence|].
    by exists its.
Qed.

(** C4 (as amended).  Whenever the format is absent or is neither
    [csv] nor [rss], the route hands the records to the JSON writer.
    For records whose timestamps are all dates the writer sends an
    array with one object for each record, in the order of the records,
    each with exactly the keys id, absoluteStartUrl, manifestUrl,
    lighthouseScore, webPageTest, pageSpeed, created and updated.  For
    a list with a record whose timestamp is not a date it throws the
    [RangeError] of [toISOString] and has sent nothing. *)
Theorem json_projection (req : Request) (result : ListResult) (s : State) :
  q_format (query req) ≠ Some "csv" →
  q_format (query req) ≠ Some "rss" →
  dispatch (format_of req) = FmtJson
  ∧ (Forall valid_dates (pwas result) →
     ∃ objs : list (gmap string JsVal),
       write req (format_of req) result s
       = (res_json (JArr (JObj <$> objs))
            (setHeader "Content-Type" "application/json" (record (EvWrite FmtJson) s)),
          Normal tt)
       ∧ List.length objs = List.length (pwas result)
       ∧ ∀ (i : nat) (p : Pwa), pwas result !! i = Some p →
           ∃ o, objs !! i = Some o
                ∧ dom o = {[ "id"; "absoluteStartUrl"; "manifestUrl"; "lighthouseScore";
                             "webPageTest"; "pageSpeed"; "created"; "updated" ]}
                ∧ o !! "id" = Some (JStr (id p))
                ∧ o !! "absoluteStartUrl" = Some (JStr (absoluteStartUrl p))
                ∧ o !! "manifestUrl" = Some (JStr (manifestUrl p))
                ∧ o !! "lighthouseScore" = Some (lighthouseScore p)
                ∧ o !! "webPageTest" = Some (webPageTest p)
                ∧ o !! "pageSpeed" = Some (pageSpeed p))
  ∧ (Exists (λ p, ¬ valid_dates p) (pwas result) →
     write req (format_of req) result s
     = (record (EvWrite FmtJson) s, Throw range_error)).
Proof.
  intros Hc Hr. split; [exact (dispatch_default _ Hc Hr)|]. split.
  - intros Hv. exists (json_object <$> pwas result).
    split; [|split].
    + unfold write_result. rewrite (dispatch_default _ Hc Hr).
      by apply JsonWriter_write_valid.
    + by rewrite length_fmap.
    + intros i p Hi. exists (json_object p). split.
      * by rewrite list_lookup_fmap, Hi.
      * split; [apply json_object_keys|].
        unfold json_object. by simplify_map_eq.
  - intros Hx. unfold write_result. rewrite (dispatch_default _ Hc Hr).
    unfold JsonWriter_write. by rewrite (cmapM_jsonPwa_invalid _ Hx).
Qed.

(** C7.  In single-record mode a lookup that fails is answered with
    status 404 and the error of the store as the body; that is the only
    response, no writer is entered and no content type is set. *)
Theorem lookup_failure_404 (req : Request) (key : string) (err : JsVal) :
  params_id req = Some key → key ≠ "" → find key = Rejects err →
  sent (answer req)
  = [{| sent_status := 404;
        sent_headers := {[ "Cache-Control" := "public, max-age=3600" ]};
        sent_body := body_json err |}]
  ∧ statusCode (answer req) = 404
  ∧ trace (answer req) = [EvFind key; EvLog err]
  ∧ (∀ f, EvWrite f ∉ trace (answer req))
  ∧ headers (answer req) !! "Content-Type" = None.
Proof.
  intros Hp Hk Hf.
  rewrite (respond_not_found req key err (single_present req key Hp Hk) Hf).
  repeat split.
  intros f Hin. cbn in Hin.
  apply elem_of_cons in Hin as [Hin | Hin]; [done|].
  apply list_elem_of_singleton in Hin. done.
Qed.

(** C8 (as amended).  The offset given to the listing call is [NaN]
    exactly when the query-string [skip] is absent or does not start,
    after white space and one optional sign, with a decimal digit; a
    [skip] that is an integer printed in decimal and followed by
    anything that does not start with a digit passes the Number value of
    the integer, which up to 2^53 is the integer; the limit is 100 when
    the query-string [limit] is absent; and these are the arguments that
    the listing call receives. *)
Theorem skip_and_limit_parsing (req : Request) :
  (parse_skip req = NaN
   ↔ q_skip (query req) = None
     ∨ ∃ v, q_skip (query req) = Some v ∧ leading_integer v = false)
  ∧ (∀ (z : Z) (c : ascii) (r : string),
       is_digit c = false →
       q_skip (query req) = Some (Z_to_string z +:+ String c r) →
       parse_skip req = to_Number (z <? 0) (Z.abs z)
       ∧ (Z.abs z < 2 ^ 53 → parse_skip req = Num z))
  ∧ (q_limit (query req) = None → parse_limit req = Num 100)
  ∧ (single req = None →
     ∃ rest, trace (answer req)
             = EvList (parse_skip req) (parse_limit req) (sort_of req) :: rest).
Proof.
  split; [|split; [|split]].
  - unfold parse_skip. destruct (q_skip (query req)) as [v|]; cbn [ToString].
    + rewrite parseInt_NaN. split.
      * intros H. right. by exists v.
      * by intros [? | (v' & [= <-] & H)].
    + split; [by left | reflexivity].
  - intros z c r Hc Hq. unfold parse_skip. rewrite Hq. cbn [ToString].
    rewrite (parseInt_then z c r Hc). split; [done|]. apply to_Number_small.
  - unfold parse_limit. by intros ->.
  - apply listing_call.
Qed.

(** C9.  The header [Cache-Control: public, max-age=3600] is set on the
    response of every request and was set when any response went out;
    this holds for the 404 of a failed lookup and for the 500 of a
    failed listing, which do go out. *)
Theorem cache_control_on_every_response (req : Request) :
  headers (answer req) !! "Cache-Control" = Some "public, max-age=3600"
  ∧ Forall (λ w, sent_headers w !! "Cache-Control" = Some "public, max-age=3600")
      (sent (answer req))
  ∧ (∀ key err, single req = Some key → find key = Rejects err →
       ∃ w, sent (answer req) = [w] ∧ sent_status w = 404
            ∧ sent_headers w !! "Cache-Control" = Some "public, max-age=3600")
  ∧ (∀ err, single req = None →
       list_pwas (parse_skip req) (parse_limit req) (sort_of req) = Rejects err →
       ∃ w, sent (answer req) = [w] ∧ sent_status w = 500
            ∧ sent_headers w !! "Cache-Control" = Some "public, max-age=3600").
Proof.
  destruct (respond_cached req) as [Hh Hs].
  split; [exact Hh|]. split; [exact Hs|]. split.
  - intros key err Hk Hf. rewrite (respond_not_found req key err Hk Hf).
    by eexists.
  - intros err Hk Hl. rewrite (respond_list_rejected req err Hk Hl).
    by eexists.
Qed.

(** C10.  The limit given to the listing call is never [NaN] and never
    zero, of either sign: a query-string [limit] whose integer parse is
    [NaN] or zero is replaced by 100. *)
Theorem limit_never_zero (req : Request) :
  parse_limit req ≠ NaN
  ∧ parse_limit req ≠ Num 0
  ∧ parse_limit req ≠ NegZero
  ∧ (parseInt (ToString (q_limit (query req))) = NaN
     ∨ parseInt (ToString (q_limit (query req))) = Num 0
     ∨ parseInt (ToString (q_limit (query req))) = NegZero →
     parse_limit req = Num 100)
  ∧ (single req = None →
     ∃ rest, trace (answer req)
             = EvList (parse_skip req) (parse_limit req) (sort_of req) :: rest).
Proof.
  unfold parse_limit.
  destruct (num_or_truthy (parseInt (ToString (q_limit (query req)))) (Num 100))
    as (H1 & H2 & H3); [done | done | done |].
  split; [exact H1|]. split; [exact H2|]. split; [exact H3|]. split.
  - apply num_or_falsy.
  - apply listing_call.
Qed.

End Answers.

(** C5 (as amended).  For records whose timestamps are all dates the
    CSV writer sends one row more than there are records: the first row
    is the fixed header and row [i + 1] is the row of record [i].  For a
    list with a record whose timestamp is not a date it throws the
    [RangeError] of [toISOString] and has sent no row at all. *)
Theorem csv_rows (l : list Pwa) (s : State) :
  (Forall valid_dates l →
   ∃ rows : list (list JsVal),
     CsvWriter_write l s
     = (res_csv rows (setHeader "Content-Type" "text/csv" (record (EvWrite FmtCsv) s)),
        Normal tt)
     ∧ List.length rows = S (List.length l)
     ∧ rows !! 0%nat
       = Some [JStr "id"; JStr "absoluteStartUrl"; JStr "manifestUrl";
               JStr "lighthouseScore"; JStr "created"; JStr "updated"]
     ∧ ∀ (i : nat) (p : Pwa), l !! i = Some p →
         rows !! S i
         = Some [JStr (id p); JStr (absoluteStartUrl p); JStr (manifestUrl p);
                 lighthouseScore p;
                 JStr (JsDate.date_string (created p));
                 JStr (JsDate.date_string (updated p))])
  ∧ (Exists (λ p, ¬ valid_dates p) l →
     CsvWriter_write l s = (record (EvWrite FmtCsv) s, Throw range_error)).
Proof.
  split.
  - intros Hv. exists (csv_header :: (csv_row <$> l)).
    split; [by apply CsvWriter_write_valid|].
    split; [cbn; by rewrite length_fmap|].
    split; [reflexivity|].
    intros i p Hi.
    change ((csv_header :: (csv_row <$> l)) !! S i) with ((csv_row <$> l) !! i).
    by rewrite list_lookup_fmap, Hi.
  - intros Hx. unfold CsvWriter_write. by rewrite (cmapM_csvLine_invalid _ Hx).
Qed.

(** C6 (as amended).  For a record whose timestamps are dates, the
    [created] and [updated] of its JSON object and of its CSV row are
    the date parts of the ISO forms of the two timestamps; for any
    other record both callbacks throw the [RangeError] of
    [toISOString].  The date part of a timestamp is the same all day
    long; it has the layout YYYY-MM-DD in the years 0000 to 9999 and,
    outside them, carries a sign and a year of six digits.  The date of
    the feed item is the timestamp [created] itself. *)
Theorem dates_at_day_precision (p : Pwa) (html : JsVal) :
  (valid_dates p →
   ∃ (o : gmap string JsVal) (row : list JsVal),
     jsonPwa p = Normal o ∧ csvLine p = Normal row
     ∧ o !! "created" = Some (JStr (JsDate.date_string (created p)))
     ∧ o !! "updated" = Some (JStr (JsDate.date_string (updated p)))
     ∧ row !! 4%nat = Some (JStr (JsDate.date_string (created p)))
     ∧ row !! 5%nat = Some (JStr (JsDate.date_string (updated p))))
  ∧ (¬ valid_dates p →
     jsonPwa p = Throw range_error ∧ csvLine p = Throw range_error)
  ∧ (∀ t, valid_date t →
       JsDate.toISOString (JsDate.TimeClip t)
       = Normal (JsDate.date_string t +:+ "T" +:+ JsDate.time_string t)
       ∧ JsDate.date_string t = JsDate.date_string (JsDate.msPerDay * JsDate.Day t)
       ∧ (four_digit_year t → is_ymd (JsDate.date_string t) = true)
       ∧ (¬ four_digit_year t →
          is_expanded_ymd (JsDate.date_string t) = true
          ∧ is_ymd (JsDate.date_string t) = false))
  ∧ date (rss_item p html) = created p.
Proof.
  split; [|split; [|split]].
  - intros Hv. exists (json_object p), (csv_row p).
    split; [by apply jsonPwa_valid|]. split; [by apply csvLine_valid|].
    split; [unfold json_object; by simplify_map_eq|].
    split; [unfold json_object; by simplify_map_eq|].
    split; reflexivity.
  - intros Hv. split; [by apply jsonPwa_invalid | by apply csvLine_invalid].
  - intros t Ht. rewrite (TimeClip_valid t Ht). split; [reflexivity|].
    split; [symmetry; apply date_string_midnight|].
    split; [apply date_string_ymd | apply date_string_expanded].
  - reflexivity.
Qed.

(* ================================================================== *)
(** * The endpoint on sample requests                                  *)
(* ================================================================== *)

(** C1 (the code departs from it).  [GET /api/pwa/b?format=rss], with a
    store that holds the record and a template engine that calls back
    with an error: the request comes to rest without any response
    having been written.  The error has only been logged. *)
Theorem rss_render_failure_unanswered :
  sent (respond Sample.find Sample.list_pwas Sample.fromRequest
          Sample.engine_failing Sample.today Sample.xml
          (Sample.one "b" (Some "rss"))) = []
  ∧ trace (respond Sample.find Sample.list_pwas Sample.fromRequest
             Sample.engine_failing Sample.today Sample.xml
             (Sample.one "b" (Some "rss")))
    = [EvFind "b"; EvWrite FmtRss; EvRenderBegin 0 Sample.bar 0;
       EvRenderEnd 0 1; EvLog (JError "Error" "template")].
Proof. split; reflexivity. Qed.

(** The CSV and JSON writers, whose exceptions reach the [catch] of the
    route, answer 500 where the RSS writer stays silent. *)
Example csv_failure_answered :
  sent (respond Sample.find Sample.list_broken Sample.fromRequest
          Sample.engine Sample.today Sample.xml
          (Sample.listing (Some "csv") None None))
  = [{| sent_status := 500;
        sent_headers := {[ "Cache-Control" := "public, max-age=3600" ]};
        sent_body := body_json (JError "RangeError" "Invalid time value") |}].
Proof. reflexivity. Qed.

Example list_failure_answered :
  sent (respond Sample.find Sample.list_down Sample.fromRequest
          Sample.engine Sample.today Sample.xml
          (Sample.listing None None None))
  = [{| sent_status := 500;
        sent_headers := {[ "Cache-Control" := "public, max-age=3600" ]};
        sent_body := body_json (JError "Error" "store unavailable") |}].
Proof. reflexivity. Qed.

(** A feed of two records, the first of which takes longer to render:
    the second render begins when the first has ended. *)
Example rss_feed_in_order :
  trace (respond Sample.find Sample.list_pwas Sample.fromRequest
           Sample.engine Sample.today Sample.xml
           (Sample.listing (Some "rss") None None))
  = [EvList NaN (Num 100) "newest"; EvWrite FmtRss;
     EvRenderBegin 0 Sample.foo 0; EvRenderEnd 0 7;
     EvRenderBegin 1 Sample.bar 7; EvRenderEnd 1 9]
  ∧ sent_body <$> sent (respond Sample.find Sample.list_pwas Sample.fromRequest
                          Sample.engine Sample.today Sample.xml
                          (Sample.listing (Some "rss") None None))
    = [body_send "<rss>a,b</rss>"].
Proof. split; reflexivity. Qed.

(** The same two records given to the callback of the loop without an
    [await]: the second render begins at time 0, seven ticks before the
    first has ended, the observer does not accept the events, and the
    feed is still without items when the second call has returned. *)
Example renders_without_await :
  trace (detached (add_item Sample.fromRequest Sample.engine
                     (Sample.listing (Some "rss") None None) Sample.bar)
           (detached (add_item Sample.fromRequest Sample.engine
                        (Sample.listing (Some "rss") None None) Sample.foo)
              initial).1).1
  = [EvRenderBegin 0 Sample.foo 0; EvRenderEnd 0 7;
     EvRenderBegin 1 Sample.bar 0; EvRenderEnd 1 2]
  ∧ watch [EvRenderBegin 0 Sample.foo 0; EvRenderEnd 0 7;
           EvRenderBegin 1 Sample.bar 0; EvRenderEnd 1 2] (idle 0 0 []) = None
  ∧ watch [EvRenderBegin 0 Sample.foo 0; EvRenderEnd 0 7;
           EvRenderBegin 1 Sample.bar 7; EvRenderEnd 1 9] (idle 0 0 [])
    = Some (idle 2 9 [Sample.foo; Sample.bar])
  ∧ items_at 0
      (added (detached (add_item Sample.fromRequest Sample.engine
                          (Sample.listing (Some "rss") None None) Sample.bar)
                (detached (add_item Sample.fromRequest Sample.engine
                             (Sample.listing (Some "rss") None None) Sample.foo)
                   initial).1).1)
    = [].
Proof. repeat split. Qed.

Lemma rss_render_failure_no_500_witness :
  sent (respond Sample.find Sample.list_pwas Sample.fromRequest
          Sample.engine_failing Sample.today Sample.xml
          (Sample.listing (Some "rss") None None)) = []
  ∧ statusCode (respond Sample.find Sample.list_pwas Sample.fromRequest
                  Sample.engine_failing Sample.today Sample.xml
                  (Sample.listing (Some "rss") None None)) = 200.
Proof.
  apply (rss_render_failure_no_500 Sample.find Sample.list_pwas Sample.fromRequest
           Sample.engine_failing Sample.today Sample.xml
           (Sample.listing (Some "rss") None None)
           {| pwas := [Sample.foo; Sample.bar] |});
    [reflexivity | reflexivity | reflexivity |].
  apply Exists_cons_tl, Exists_cons_hd. intros t. reflexivity.
Defined.

Lemma sample_dates_valid : Forall valid_dates [Sample.foo; Sample.bar].
Proof.
  repeat constructor; unfold valid_date; cbn; lia.
Defined.

Lemma json_projection_witness :
  ∃ objs : list (gmap string JsVal),
    write_result Sample.fromRequest Sample.engine Sample.today Sample.xml
      (Sample.listing (Some "xml") None None) "xml"
      {| pwas := [Sample.foo; Sample.bar] |} initial
    = (res_json (JArr (JObj <$> objs))
         (setHeader "Content-Type" "application/json"
            (record (EvWrite FmtJson) initial)),
       Normal tt)
    ∧ List.length objs = 2%nat.
Proof.
  destruct (json_projection Sample.fromRequest Sample.engine Sample.today Sample.xml
              (Sample.listing (Some "xml") None None)
              {| pwas := [Sample.foo; Sample.bar] |} initial)
    as (_ & Hv & _); [discriminate | discriminate |].
  destruct (Hv sample_dates_valid) as (objs & Hw & Hl & _).
  exists objs. split; [exact Hw | exact Hl].
Defined.

Lemma csv_rows_witness :
  ∃ rows : list (list JsVal),
    CsvWriter_write [Sample.foo; Sample.bar] initial
    = (res_csv rows (setHeader "Content-Type" "text/csv"
                       (record (EvWrite FmtCsv) initial)),
       Normal tt)
    ∧ List.length rows = 3%nat.
Proof.
  destruct (csv_rows [Sample.foo; Sample.bar] initial) as [Hv _].
  destruct (Hv sample_dates_valid) as (rows & Hw & Hl & _).
  exists rows. split; [exact Hw | exact Hl].
Defined.

Lemma dates_at_day_precision_witness :
  valid_dates Sample.foo
  ∧ ∃ (o : gmap string JsVal) (row : list JsVal),
      jsonPwa Sample.foo = Normal o ∧ csvLine Sample.foo = Normal row
      ∧ o !! "created" = Some (JStr (JsDate.date_string 1577959200000))
      ∧ row !! 5%nat = Some (JStr (JsDate.date_string 1578182400000)).
Proof.
  assert (valid_dates Sample.foo) as Hv
    by (split; unfold valid_date; cbn; lia).
  split; [exact Hv|].
  destruct (dates_at_day_precision Sample.foo JNull) as [H _].
  destruct (H Hv) as (o & row & Hj & Hc & Ho & _ & _ & Hr).
  exists o, row. repeat split; assumption.
Defined.

Lemma skip_and_limit_parsing_witness :
  parse_skip (Sample.listing None (Some "12abc") None) = Num 12.
Proof.
  destruct (skip_and_limit_parsing Sample.find Sample.list_pwas Sample.fromRequest
              Sample.engine Sample.today Sample.xml
              (Sample.listing None (Some "12abc") None)) as (_ & H & _).
  destruct (H 12 "a"%char "bc") as [_ H2]; [reflexivity | reflexivity |].
  apply H2. reflexivity.
Defined.

Lemma lookup_failure_404_witness :
  sent_status <$> sent (respond Sample.find Sample.list_pwas Sample.fromRequest
                          Sample.engine Sample.today Sample.xml
                          (Sample.one "zz" (Some "rss")))
  = [404].
Proof.
  destruct (lookup_failure_404 Sample.find Sample.list_pwas Sample.fromRequest
              Sample.engine Sample.today Sample.xml
              (Sample.one "zz" (Some "rss")) "zz" (JStr "not found"))
    as (Hs & _); [reflexivity | discriminate | reflexivity |].
  rewrite Hs. reflexivity.
Defined.

(** C4 (as first stated, refuted).  A listing with a record whose
    [updated] is not a date, and a query without a format: the JSON
    writer is chosen and throws, so that no array of objects is sent;
    the request is answered with the 500 of the route. *)
Lemma json_projection_needs_dates :
  write_result Sample.fromRequest Sample.engine Sample.today Sample.xml
    (Sample.listing None None None) "json"
    {| pwas := [Sample.foo; Sample.broken] |} initial
  = (record (EvWrite FmtJson) initial, Throw range_error)
  ∧ (¬ ∃ objs : list (gmap string JsVal),
         write_result Sample.fromRequest Sample.engine Sample.today Sample.xml
           (Sample.listing None None None) "json"
           {| pwas := [Sample.foo; Sample.broken] |} initial
         = (res_json (JArr (JObj <$> objs))
              (setHeader "Content-Type" "application/json"
                 (record (EvWrite FmtJson) initial)),
            Normal tt))
  ∧ sent (respond Sample.find Sample.list_broken Sample.fromRequest
            Sample.engine Sample.today Sample.xml
            (Sample.listing None None None))
    = [{| sent_status := 500;
          sent_headers := {[ "Cache-Control" := "public, max-age=3600" ]};
          sent_body := body_json (JError "RangeError" "Invalid time value") |}].
Proof.
  split; [reflexivity|]. split; [|reflexivity].
  intros [objs H]. apply (f_equal snd) in H. discriminate H.
Qed.

(** C5 (as first stated, refuted).  The same list given to the CSV
    writer: the writer throws, no row is sent, neither the header nor
    the row of the first record, and the request is answered with the
    500 of the route. *)
Lemma csv_rows_need_dates :
  CsvWriter_write [Sample.foo; Sample.broken] initial
  = (record (EvWrite FmtCsv) initial, Throw range_error)
  ∧ (¬ ∃ rows : list (list JsVal),
         CsvWriter_write [Sample.foo; Sample.broken] initial
         = (res_csv rows (setHeader "Content-Type" "text/csv"
                            (record (EvWrite FmtCsv) initial)),
            Normal tt))
  ∧ sent (respond Sample.find Sample.list_broken Sample.fromRequest
            Sample.engine Sample.today Sample.xml
            (Sample.listing (Some "csv") None None))
    = [{| sent_status := 500;
          sent_headers := {[ "Cache-Control" := "public, max-age=3600" ]};
          sent_body := body_json (JError "RangeError" "Invalid time value") |}].
Proof.
  split; [reflexivity|]. split; [|reflexivity].
  intros [rows H]. apply (f_equal snd) in H. discriminate H.
Qed.

(** C6 (as first stated, refuted).  A record created on the first
    day of the year 10000 has valid timestamps, and the [created] of its
    JSON object and of its CSV row is [+010000-01-01], which is not of
    the layout YYYY-MM-DD.  A record whose [updated] is not a date has
    no JSON object and no CSV row, hence no [created] and no [updated]
    in either: both callbacks throw. *)
Lemma date_fields_not_always_ymd :
  (valid_dates Sample.far
   ∧ (∃ o, jsonPwa Sample.far = Normal o
           ∧ o !! "created" = Some (JStr "+010000-01-01"))
   ∧ (∃ row, csvLine Sample.far = Normal row
             ∧ row !! 4%nat = Some (JStr "+010000-01-01"))
   ∧ is_ymd "+010000-01-01" = false)
  ∧ (¬ valid_dates Sample.broken
     ∧ jsonPwa Sample.broken = Throw range_error
     ∧ csvLine Sample.broken = Throw range_error).
Proof.
  split.
  - split; [split; unfold valid_date; cbn; lia|].
    split; [eexists; split; [reflexivity | vm_compute; reflexivity]|].
    split; [eexists; split; reflexivity | reflexivity].
  - split; [|split; reflexivity].
    intros [_ H]. unfold valid_date in H. cbn in H. lia.
Qed.

(** C8 (as first stated, refuted).  The value [12abc] is not a
    number, yet the offset that the listing call receives for
    [?skip=12abc] is 12. *)
Lemma skip_prefix_is_parsed :
  numeric "12abc" = false
  ∧ parse_skip (Sample.listing None (Some "12abc") None) = Num 12
  ∧ head (trace (respond Sample.find Sample.list_pwas Sample.fromRequest
                   Sample.engine Sample.today Sample.xml
                   (Sample.listing None (Some "12abc") None)))
    = Some (EvList (Num 12) (Num 100) "newest").
Proof. repeat split. Qed.

Example limit_zero_replaced :
  parse_limit (Sample.listing None None (Some "0")) = Num 100.
Proof. reflexivity. Qed.

Example limit_negative_kept :
  parse_limit (Sample.listing None None (Some "-5")) = Num (-5).
Proof. reflexivity. Qed.

Example skip_absent : parse_skip (Sample.listing None None None) = NaN.
Proof. reflexivity. Qed.

(* ================================================================== *)
(** * The calendar behind the dates                                  *)
(* ================================================================== *)

Lemma DayFromYear_step (y : Z) :
  JsDate.DayFromYear (y + 1) = JsDate.DayFromYear y + JsDate.DaysInYear y.
Proof.
  unfold JsDate.DayFromYear, JsDate.DaysInYear.
  destruct (Z.eqb_spec (y mod 4) 0); cbn [negb];
    [destruct (Z.eqb_spec (y mod 100) 0); cbn [negb];
       [destruct (Z.eqb_spec (y mod 400) 0); cbn [negb]|]|];
    Z.to_euclidean_division_equations; lia.
Qed.

Lemma DaysInYear_cases (y : Z) :
  JsDate.DaysInYear y = 365 ∨ JsDate.DaysInYear y = 366.
Proof.
  unfold JsDate.DaysInYear.
  destruct (negb _); [auto|]. destruct (negb _); [auto|]. destruct (negb _); auto.
Qed.

Lemma DayWithinYear_range (t : Z) :
  0 <= JsDate.DayWithinYear t < 365 + JsDate.InLeapYear t.
Proof.
  unfold JsDate.DayWithinYear, JsDate.InLeapYear.
  pose proof (YearFromTime_spec t) as H.
  rewrite DayFromYear_step in H.
  destruct (DaysInYear_cases (JsDate.YearFromTime t)) as [E|E]; rewrite E in *;
    cbn; lia.
Qed.

(** The year, month and day that [toISOString] prints are a date of the
    calendar, and the date of the day the timestamp falls on. *)
Lemma calendar_date (t : Z) :
  0 <= JsDate.MonthFromTime t <= 11
  ∧ 1 <= JsDate.DateFromTime t
  ∧ JsDate.DateFromTime t <= month_length (JsDate.MonthFromTime t) (JsDate.InLeapYear t)
  ∧ MakeDay (JsDate.YearFromTime t) (JsDate.MonthFromTime t) (JsDate.DateFromTime t)
    = JsDate.Day t.
Proof.
  pose proof (DayWithinYear_range t) as Hr.
  assert (JsDate.InLeapYear t = 0 ∨ JsDate.InLeapYear t = 1) as Hl.
  { unfold JsDate.InLeapYear. destruct (_ =? _); auto. }
  unfold MakeDay. fold (JsDate.InLeapYear t).
  assert (JsDate.Day t = JsDate.DayFromYear (JsDate.YearFromTime t) + JsDate.DayWithinYear t)
    as -> by (unfold JsDate.DayWithinYear; lia).
  unfold JsDate.DateFromTime, JsDate.MonthFromTime.
  set (d := JsDate.DayWithinYear t) in *. clearbody d.
  set (leap := JsDate.InLeapYear t) in *. clearbody leap.
  repeat match goal with
         | |- context [ if ?a <? ?b then _ else _ ] => destruct (Z.ltb_spec a b)
         end;
    cbn [month_length month_start]; lia.
Qed.

Lemma digit_val_digit_char (n : Z) : digit_val (digit_char (n mod 10)) = n mod 10.
Proof.
  assert (0 <= n mod 10 < 10) as H by (apply Z.mod_pos_bound; lia).
  assert (n mod 10 = 0 ∨ n mod 10 = 1 ∨ n mod 10 = 2 ∨ n mod 10 = 3 ∨ n mod 10 = 4
          ∨ n mod 10 = 5 ∨ n mod 10 = 6 ∨ n mod 10 = 7 ∨ n mod 10 = 8 ∨ n mod 10 = 9)
    as Hd by lia.
  destruct Hd as [-> | [-> | [-> | [-> | [-> | [-> | [-> | [-> | [-> | ->]]]]]]]]];
    reflexivity.
Qed.

Lemma digits_value_app (a b : string) (acc : Z) :
  digits_value (a +:+ b) acc = digits_value b (digits_value a acc).
Proof.
  revert acc. induction a as [|c a IH]; intros acc; [done|]. cbn. apply IH.
Qed.

(** Reading back [w] printed digits gives the number, up to [10^w]. *)
Lemma fixed_digits_value (w : nat) (n acc : Z) :
  digits_value (fixed_digits w n) acc = acc * 10 ^ Z.of_nat w + n mod 10 ^ Z.of_nat w.
Proof.
  revert n acc. induction w as [|w IH]; intros n acc.
  - cbn [fixed_digits digits_value]. change (10 ^ Z.of_nat 0) with 1.
    rewrite Z.mod_1_r. lia.
  - cbn [fixed_digits]. rewrite digits_value_app, IH.
    cbn [digits_value]. rewrite digit_val_digit_char.
    rewrite Nat2Z.inj_succ, Z.pow_succ_r by lia.
    rewrite (Z.rem_mul_r n 10 (10 ^ Z.of_nat w)) by lia.
    lia.
Qed.

Lemma fixed_digits_inj (w : nat) (a b : Z) :
  0 <= a < 10 ^ Z.of_nat w → 0 <= b < 10 ^ Z.of_nat w →
  fixed_digits w a = fixed_digits w b → a = b.
Proof.
  intros Ha Hb H.
  pose proof (fixed_digits_value w a 0) as Va.
  pose proof (fixed_digits_value w b 0) as Vb.
  rewrite H in Va. rewrite Va in Vb.
  rewrite !Z.mod_small in Vb by done. lia.
Qed.

Lemma string_length_append (a b : string) :
  String.length (a +:+ b) = (String.length a + String.length b)%nat.
Proof. induction a as [|c a IH]; [done|]. simpl. by f_equal. Qed.

Lemma fixed_digits_length (w : nat) (n : Z) : String.length (fixed_digits w n) = w.
Proof.
  revert n. induction w as [|w IH]; intros n; [done|].
  cbn [fixed_digits]. rewrite string_length_append, IH. cbn. lia.
Qed.

Lemma append_inj_length (a1 a2 b1 b2 : string) :
  String.length a1 = String.length a2 →
  a1 +:+ b1 = a2 +:+ b2 → a1 = a2 ∧ b1 = b2.
Proof.
  revert a2. induction a1 as [|c a1 IH]; intros [|c' a2] Hl H; try done.
  cbn in Hl, H. injection H as -> H.
  destruct (IH a2) as [-> ->]; [lia | done | done].
Qed.

Lemma year_string_length (y : Z) :
  String.length (JsDate.year_string y)
  = if (0 <=? y) && (y <=? 9999) then 4%nat else 7%nat.
Proof.
  unfold JsDate.year_string. destruct ((0 <=? y) && (y <=? 9999)).
  - apply fixed_digits_length.
  - rewrite string_length_append, fixed_digits_length. by destruct (y <? 0).
Qed.

Lemma year_string_inj (y1 y2 : Z) :
  -1000000 < y1 < 1000000 → -1000000 < y2 < 1000000 →
  JsDate.year_string y1 = JsDate.year_string y2 → y1 = y2.
Proof.
  intros H1 H2 H.
  pose proof (f_equal String.length H) as Hl. rewrite !year_string_length in Hl.
  unfold JsDate.year_string in H.
  destruct ((0 <=? y1) && (y1 <=? 9999)) eqn:E1;
    destruct ((0 <=? y2) && (y2 <=? 9999)) eqn:E2; try done.
  - apply (fixed_digits_inj 4); [| |done]; change (10 ^ Z.of_nat 4) with 10000; lia.
  - apply append_inj_length in H as [Hs H];
      [|by destruct (y1 <? 0), (y2 <? 0)].
    apply (fixed_digits_inj 6) in H; [|change (10 ^ Z.of_nat 6) with 1000000; lia..].
    destruct (Z.ltb_spec y1 0); destruct (Z.ltb_spec y2 0); try done; lia.
Qed.

Lemma valid_year_range (t : Z) :
  valid_date t → -1000000 < JsDate.YearFromTime t < 1000000.
Proof.
  intros Ht. pose proof (YearFromTime_spec t) as Hy.
  assert (-100000000 <= JsDate.Day t <= 100000000) as Hd.
  { unfold valid_date in Ht. unfold JsDate.Day, JsDate.msPerDay.
    Z.to_euclidean_division_equations. lia. }
  set (y := JsDate.YearFromTime t) in *. clearbody y.
  unfold JsDate.DayFromYear in Hy.
  Z.to_euclidean_division_equations. lia.
Qed.

(** Two timestamps have the same date part exactly when they fall on the
    same day. *)
Lemma date_string_same_day (t1 t2 : Z) :
  valid_date t1 → valid_date t2 →
  JsDate.date_string t1 = JsDate.date_string t2 ↔ JsDate.Day t1 = JsDate.Day t2.
Proof.
  intros H1 H2. split.
  - intros H.
    destruct (calendar_date t1) as (Hm1 & Hd1 & Hu1 & <-).
    destruct (calendar_date t2) as (Hm2 & Hd2 & Hu2 & <-).
    assert (∀ t, JsDate.DateFromTime t <= 31) as Hd31.
    { intros t. destruct (calendar_date t) as (Hm & _ & Hu & _).
      assert (JsDate.InLeapYear t = 0 ∨ JsDate.InLeapYear t = 1) as Hl
        by (unfold JsDate.InLeapYear; destruct (_ =? _); auto).
      assert (month_length (JsDate.MonthFromTime t) (JsDate.InLeapYear t) <= 31); [|lia].
      set (m := JsDate.MonthFromTime t) in *. clearbody m.
      assert (m = 0 ∨ m = 1 ∨ m = 2 ∨ m = 3 ∨ m = 4 ∨ m = 5 ∨ m = 6 ∨ m = 7
              ∨ m = 8 ∨ m = 9 ∨ m = 10 ∨ m = 11) as Hc by lia.
      destruct Hc as [-> | [-> | [-> | [-> | [-> | [-> | [-> | [-> | [-> | [-> | [-> | ->]]]]]]]]]]];
        cbn; lia. }
    pose proof (f_equal String.length H) as Hl.
    unfold JsDate.date_string in H, Hl.
    rewrite !string_length_append, !fixed_digits_length in Hl.
    apply append_inj_length in H as [Hy H]; [|cbn in Hl; lia].
    apply append_inj_length in H as [_ H]; [|done].
    apply append_inj_length in H as [Hm H]; [|by rewrite !fixed_digits_length].
    apply append_inj_length in H as [_ Hd]; [|done].
    apply year_string_inj in Hy; [|by apply valid_year_range..].
    apply (fixed_digits_inj 2) in Hm; [|change (10 ^ Z.of_nat 2) with 100; lia..].
    apply (fixed_digits_inj 2) in Hd;
      [|change (10 ^ Z.of_nat 2) with 100;
        pose proof (Hd31 t1); pose proof (Hd31 t2); lia..].
    assert (JsDate.MonthFromTime t1 = JsDate.MonthFromTime t2) as Hm' by lia.
    by rewrite Hy, Hm', Hd.
  - intros H. rewrite <- (date_string_midnight t1), <- (date_string_midnight t2).
    by rewrite H.
Qed.

(* ================================================================== *)
(** * The writers, all or nothing                                    *)
(* ================================================================== *)

(** X1.  The CSV and JSON writers are all or nothing.  When every
    record has timestamps that are dates both return normally; when
    some record has not, both throw the [RangeError] of [toISOString]
    before they have touched the response: no header is set and
    nothing is sent. *)
Theorem writers_all_or_nothing (l : list Pwa) (s : State) :
  (Forall valid_dates l
   ∧ (CsvWriter_write l s).2 = Normal tt
   ∧ (JsonWriter_write l s).2 = Normal tt)
  ∨ (Exists (λ p, ¬ valid_dates p) l
     ∧ CsvWriter_write l s = (record (EvWrite FmtCsv) s, Throw range_error)
     ∧ JsonWriter_write l s = (record (EvWrite FmtJson) s, Throw range_error)).
Proof.
  destruct (Forall_or_Exists_invalid l) as [H|H]; [left | right].
  - split; [done|].
    by rewrite (CsvWriter_write_valid l s H), (JsonWriter_write_valid l s H).
  - split; [done|]. unfold CsvWriter_write, JsonWriter_write.
    by rewrite (cmapM_csvLine_invalid l H), (cmapM_jsonPwa_invalid l H).
Qed.

(** X2.  The CSV row of a record is its JSON object read at the six
    columns of the header, in the order of the header; on a record
    whose timestamps are not dates both callbacks throw the same
    error. *)
Theorem csv_row_of_json_object (p : Pwa) :
  csvLine p
  = cbind (jsonPwa p) (λ o,
      Normal ((λ k, default JUndefined (o !! k))
                <$> ["id"; "absoluteStartUrl"; "manifestUrl"; "lighthouseScore";
                     "created"; "updated"])).
Proof.
  unfold csvLine, jsonPwa.
  destruct (getDate (created p)) as [c|e]; [|done].
  destruct (getDate (updated p)) as [u|e]; [|done].
  cbn [cbind fmap list_fmap]. by simplify_map_eq.
Qed.

(* ================================================================== *)
(** * The feed loop, record by record                                *)
(* ================================================================== *)

Section Loop.

Context (fromRequest : Request → string → gmap string JsVal).
Context (view_engine : nat → string → RenderArg → nat * (JsVal * JsVal)).
Context (req : Request).

#[local] Abbreviation add := (add_item fromRequest view_engine req).
#[local] Abbreviation answer_at s p :=
  (view_engine (now s) "pwas/view-rss.hbs" (rss_arg fromRequest req p)).
#[local] Abbreviation renders p := (renders_well view_engine (rss_arg fromRequest req p)).
#[local] Abbreviation fails p := (render_fails view_engine (rss_arg fromRequest req p)).

(** The loop makes no call to the record store. *)
Lemma for_loop_no_store_call (l : list Pwa) (s : State) :
  ∃ evs, trace (for_loop l add s).1 = trace s ++ evs
         ∧ List.filter is_store_call evs = [].
Proof.
  revert s. induction l as [|p l IH]; intros s.
  - exists []. by rewrite app_nil_r.
  - cbn [for_loop]. rewrite await_add_item.
    destruct (answer_at s p) as [latency [err html]].
    destruct (truthy err).
    + eexists. cbn [fst]. unfold console_log, record. cbn [trace].
      rewrite trace_turn, <- app_assoc. split; [done | reflexivity].
    + destruct (IH (feed_item (rss_item p html) (turn p latency s))) as (evs & Ht & Hf).
      destruct (for_loop l add _) as [s' r]. cbn [fst] in *.
      eexists. rewrite Ht. unfold feed_item. cbn [trace].
      rewrite trace_turn, <- app_assoc. split; [done|].
      cbn. exact Hf.
Qed.


(** The loop ends at the sum of the times of its renders. *)
Lemma for_loop_sum (latency : Pwa → nat) (l : list Pwa) (s : State) :
  Forall (λ p, renders p ∧ ∀ t, (view_engine t "pwas/view-rss.hbs"
                                   (rss_arg fromRequest req p)).1 = latency p) l →
  (for_loop l add s).2 = Fulfilled tt
  ∧ now (for_loop l add s).1 = (now s + sum_list (latency <$> l))%nat.
Proof.
  intros H. revert s. induction H as [|p l [Hp Hl] _ IH]; intros s.
  - cbn. split; [done | lia].
  - cbn [for_loop]. rewrite await_add_item.
    specialize (Hp (now s)). specialize (Hl (now s)).
    destruct (answer_at s p) as [lat [err html]]. cbn in Hp, Hl. rewrite Hp. subst lat.
    destruct (IH (feed_item (rss_item p html) (turn p (latency p) s))) as [Hr Hn].
    split; [exact Hr|]. rewrite Hn. cbn. lia.
Qed.


(** X13.  The renders of a feed are paid for one after the other: when
    the time a record takes to render does not depend on when it is
    asked for, the promise of the loop is fulfilled at the sum of these
    times after the call, which is when the code after an [await] of the
    loop runs; the caller that does not wait is still at the time of
    the call, and so is the caller of the callback, whose promise is
    due when the one render is. *)
Theorem loop_takes_the_sum (latency : Pwa → nat) (l : list Pwa) (s : State) :
  Forall (λ p, renders p ∧ ∀ t, (view_engine t "pwas/view-rss.hbs"
                                   (rss_arg fromRequest req p)).1 = latency p) l →
  outcome (asyncForEach l add s).2 = Fulfilled tt
  ∧ due (asyncForEach l add s).2 = (now s + sum_list (latency <$> l))%nat
  ∧ now (asyncForEach l add s).1 = now s
  ∧ (∀ k : unit → Fn unit,
       await (asyncForEach l add) k s
       = k tt (at_time (now s + sum_list (latency <$> l)) (asyncForEach l add s).1))
  ∧ Forall (λ p, now (add p s).1 = now s
                 ∧ due (add p s).2 = (now s + latency p)%nat) l.
Proof.
  intros H. destruct (for_loop_sum latency l s H) as [Hr Hn].
  split; [by rewrite asyncForEach_call|].
  split; [by rewrite asyncForEach_call|].
  split; [by rewrite asyncForEach_call|].
  split.
  - intros k. rewrite await_asyncForEach, asyncForEach_call, Hr, <- Hn.
    cbn [fst]. change (at_time ?t (at_time _ ?x)) with (at_time t x).
    by rewrite at_time_now.
  - eapply Forall_impl; [exact H|]. intros p [Hp Hl]. cbn beta in *.
    split; [apply add_item_now|].
    specialize (Hl (now s)).
    unfold add_item, async, await, renderOnePwaRss, render.
    fold (rss_arg fromRequest req p). cbn [arg_pwa].
    destruct (view_engine _ _ _) as [lat [err html]]. cbn in Hl. subst lat.
    destruct (truthy err); cbn; lia.
Qed.

End Loop.

(* ================================================================== *)
(** * Requests from end to end                                       *)
(* ================================================================== *)

Lemma in_record_order_length (l : list Pwa) (its : list Item) :
  in_record_order l its → List.length its = List.length l.
Proof. intros H. symmetry. exact (Forall2_length _ _ _ H). Qed.

Section Requests.

Context (find : string → Outcome Pwa).
Context (list_pwas : JsNum → JsNum → string → Outcome ListResult).
Context (fromRequest : Request → string → gmap string JsVal).
Context (view_engine : nat → string → RenderArg → nat * (JsVal * JsVal)).
Context (today : Z) (xml : Feed → string).

#[local] Abbreviation answer := (respond find list_pwas fromRequest view_engine today xml).
#[local] Abbreviation write := (write_result fromRequest view_engine today xml).
#[local] Abbreviation rss_write := (RssWriter_write fromRequest view_engine today xml).
#[local] Abbreviation format_of req := (str_or (q_format (query req)) "json").
#[local] Abbreviation got := (fetched find list_pwas).
#[local] Abbreviation renders req p :=
  (renders_well view_engine (rss_arg fromRequest req p)).

(** A request that the store answers goes to a writer. *)
Lemma respond_fetched (req : Request) (result : ListResult) :
  got req result →
  answer req
  = settle_write (write req (format_of req) result (record (store_event req) prepared)).
Proof.
  unfold fetched, store_event. destruct (single req) as [key|] eqn:Hs.
  - intros (p & Hf & ->).
    apply (respond_found find list_pwas fromRequest view_engine today xml req key p Hs Hf).
  - intros Hl.
    apply (respond_listed find list_pwas fromRequest view_engine today xml req result Hs Hl).
Qed.

(** A request that the store rejects is answered in place. *)
Lemma respond_rejected (req : Request) :
  (∃ result, got req result)
  ∨ (∃ err code,
       answer req
       = res_json err (status code (console_log err (record (store_event req) prepared)))
       ∧ (code = 404 ∨ code = 500)
       ∧ ∀ result, ¬ got req result).
Proof.
  unfold fetched, store_event.
  destruct (respond_cases find list_pwas req)
    as [(key & err & Hs & Hf) | [(err & Hs & Hl) | [(key & p & Hs & Hf) | (result & Hs & Hl)]]];
    rewrite Hs.
  - right. exists err, 404. split; [|split; [by left|]].
    + apply (respond_not_found find list_pwas fromRequest view_engine today xml
               req key err Hs Hf).
    + intros result (p & Hp & _). congruence.
  - right. exists err, 500. split; [|split; [by right|]].
    + apply (respond_list_rejected find list_pwas fromRequest view_engine today xml
               req err Hs Hl).
    + intros result Hr. congruence.
  - left. exists {| pwas := [p] |}. by exists p.
  - left. by exists result.
Qed.

(** What a writer and the [catch] of the route add to a response that
    has the header of the route and nothing else. *)
Lemma settle_write_fresh (req : Request) (fmt : string) (result : ListResult)
    (ev : Event) :
  sent (settle_write (write req fmt result (record ev prepared)))
  = match dispatch fmt with
    | FmtCsv =>
        match cmapM csvLine (pwas result) with
        | Normal csv =>
            [{| sent_status := 200; sent_headers := ok_headers "text/csv";
                sent_body := body_csv (csv_header :: csv) |}]
        | Throw e =>
            [error_response 500 {[ "Cache-Control" := cache_header ]} e]
        end
    | FmtJson =>
        match cmapM jsonPwa (pwas result) with
        | Normal l =>
            [{| sent_status := 200; sent_headers := ok_headers "application/json";
                sent_body := body_json (JArr (JObj <$> l)) |}]
        | Throw e =>
            [error_response 500 {[ "Cache-Control" := cache_header ]} e]
        end
    | FmtRss => sent (rss_write req (pwas result) (record ev prepared)).1
    end.
Proof.
  unfold write_result. destruct (dispatch fmt).
  - unfold CsvWriter_write. by destruct (cmapM csvLine (pwas result)).
  - destruct (RssWriter_write_outcome fromRequest view_engine today xml req
                (pwas result) (record ev prepared)) as [Hn _].
    destruct (rss_write req (pwas result) (record ev prepared)) as [s' c].
    cbn in Hn. by subst c.
  - unfold JsonWriter_write. by destruct (cmapM jsonPwa (pwas result)).
Qed.

(** X3.  No request is answered twice: whatever the store and the
    template engine do, the route performs at most one terminal write
    on the response. *)
Theorem never_answered_twice (req : Request) :
  (List.length (sent (answer req)) ≤ 1)%nat.
Proof.
  apply (respond_at_most_once find list_pwas fromRequest view_engine today xml req).
Qed.

(** X4.  A request for the CSV or the JSON format is answered exactly
    once, with a 200 when the store answers and every record has dates
    for timestamps, with a 404 or 500 otherwise. *)
Theorem csv_json_answered_once (req : Request) :
  dispatch (format_of req) ≠ FmtRss →
  ∃ w, sent (answer req) = [w]
       ∧ (sent_status w = 200 ∨ sent_status w = 404 ∨ sent_status w = 500)
       ∧ (sent_status w = 200
          ↔ ∃ result, got req result ∧ Forall valid_dates (pwas result)).
Proof.
  intros Hd. destruct (respond_rejected req) as [[result Hg] | (err & code & -> & Hc & Hno)].
  - rewrite (respond_fetched req result Hg), settle_write_fresh.
    assert (∀ result', got req result' → result' = result) as Huniq.
    { intros result' Hg'. unfold fetched in *. destruct (single req).
      - destruct Hg as (p & Hf & ->), Hg' as (p' & Hf' & ->). congruence.
      - congruence. }
    destruct (dispatch (format_of req)); [|done|].
    + destruct (Forall_or_Exists_invalid (pwas result)) as [Hv|Hv].
      * rewrite (cmapM_Normal csvLine csv_row);
          [|eapply Forall_impl; [exact Hv | apply csvLine_valid]].
        eexists. split; [done|]. split; [by left|]. cbn. split; [|done].
        intros _. by exists result.
      * rewrite (cmapM_csvLine_invalid _ Hv).
        eexists. split; [done|]. split; [by right; right|]. cbn. split; [done|].
        intros (result' & Hg' & Hv'). exfalso. rewrite (Huniq result' Hg') in Hv'.
        apply Exists_exists in Hv as (p & Hp & Hn).
        rewrite Forall_forall in Hv'. by apply Hn, Hv'.
    + destruct (Forall_or_Exists_invalid (pwas result)) as [Hv|Hv].
      * rewrite (cmapM_Normal jsonPwa json_object);
          [|eapply Forall_impl; [exact Hv | apply jsonPwa_valid]].
        eexists. split; [done|]. split; [by left|]. cbn. split; [|done].
        intros _. by exists result.
      * rewrite (cmapM_jsonPwa_invalid _ Hv).
        eexists. split; [done|]. split; [by right; right|]. cbn. split; [done|].
        intros (result' & Hg' & Hv'). exfalso. rewrite (Huniq result' Hg') in Hv'.
        apply Exists_exists in Hv as (p & Hp & Hn).
        rewrite Forall_forall in Hv'. by apply Hn, Hv'.
  - eexists. split; [done|]. cbn. split; [destruct Hc as [-> | ->]; auto|].
    split; [destruct Hc as [-> | ->]; done|].
    intros (result & Hg & _). by destruct (Hno result).
Qed.

(** X5.  Every response has status 200, 404 or 500; a 200 carries the
    content type of its body (text/csv, application/json or
    application/rss+xml) and a 404 or 500 carries an error as JSON and
    no content type set by the route. *)
Theorem responses_well_typed (req : Request) :
  Forall well_typed (sent (answer req)).
Proof.
  destruct (respond_rejected req) as [[result Hg] | (err & code & -> & Hc & _)].
  - rewrite (respond_fetched req result Hg), settle_write_fresh.
    destruct (dispatch (format_of req)).
    + destruct (cmapM csvLine (pwas result)); apply Forall_singleton.
      * by left.
      * right. split; [by right|]. split; [done | by eexists].
    + destruct (RssWriter_write_outcome fromRequest view_engine today xml req
                  (pwas result) (record (store_event req) prepared))
        as [_ [(e & _ & _ & _ & ->) | (its & _ & _ & _ & _ & ->)]].
      * constructor.
      * apply Forall_singleton. by left.
    + destruct (cmapM jsonPwa (pwas result)); apply Forall_singleton.
      * by left.
      * right. split; [by right|]. split; [done | by eexists].
  - apply Forall_singleton. right. split; [exact Hc|]. split; [done | by eexists].
Qed.

(** X6.  A request for the RSS format that the store answers and whose
    records all render is answered once, with status 200, the content
    type application/rss+xml and the serialised feed, which has one
    item for each record in the order of the records. *)
Theorem rss_answered_with_the_feed (req : Request) (result : ListResult) :
  got req result →
  dispatch (format_of req) = FmtRss →
  Forall (λ p, renders req p) (pwas result) →
  ∃ its, sent (answer req)
         = [{| sent_status := 200;
               sent_headers := ok_headers "application/rss+xml";
               sent_body := body_send (xml (new_feed today its)) |}]
         ∧ in_record_order (pwas result) its
         ∧ List.length its = List.length (pwas result).
Proof.
  intros Hg Hd Hr. rewrite (respond_fetched req result Hg), settle_write_fresh, Hd.
  destruct (RssWriter_write_outcome fromRequest view_engine today xml req
              (pwas result) (record (store_event req) prepared))
    as [_ [(e & He & _) | (its & _ & Ho & _ & _ & ->)]].
  - rewrite (for_loop_fulfilled fromRequest view_engine req (pwas result) _ Hr) in He.
    done.
  - exists its. split; [done|]. split; [done|]. by apply in_record_order_length.
Qed.

(** X7.  A request for the CSV or the JSON format that the store
    answers with records whose timestamps are dates is answered with
    status 200, the matching content type and the projection of the
    records: the header row and one row for each record, or one object
    for each record. *)
Theorem csv_json_answered_with_the_records (req : Request) (result : ListResult) :
  got req result →
  Forall valid_dates (pwas result) →
  (dispatch (format_of req) = FmtCsv →
   sent (answer req)
   = [{| sent_status := 200; sent_headers := ok_headers "text/csv";
         sent_body := body_csv (csv_header :: (csv_row <$> pwas result)) |}])
  ∧ (dispatch (format_of req) = FmtJson →
     sent (answer req)
     = [{| sent_status := 200; sent_headers := ok_headers "application/json";
           sent_body := body_json (JArr (JObj <$> (json_object <$> pwas result))) |}]).
Proof.
  intros Hg Hv. rewrite (respond_fetched req result Hg), settle_write_fresh.
  split; intros ->.
  - by rewrite (cmapM_Normal csvLine csv_row);
      [|eapply Forall_impl; [exact Hv | apply csvLine_valid]].
  - by rewrite (cmapM_Normal jsonPwa json_object);
      [|eapply Forall_impl; [exact Hv | apply jsonPwa_valid]].
Qed.

(** X8.  When a record that the store returns has a timestamp that is
    not a date, a request for the CSV or the JSON format is answered
    with status 500 and the [RangeError] as the body, without a content
    type: nothing of the projection goes out. *)
Theorem invalid_date_answered_500 (req : Request) (result : ListResult) :
  got req result →
  dispatch (format_of req) ≠ FmtRss →
  Exists (λ p, ¬ valid_dates p) (pwas result) →
  sent (answer req)
  = [{| sent_status := 500;
        sent_headers := {[ "Cache-Control" := "public, max-age=3600" ]};
        sent_body := body_json (JError "RangeError" "Invalid time value") |}].
Proof.
  intros Hg Hd Hx. rewrite (respond_fetched req result Hg), settle_write_fresh.
  destruct (dispatch (format_of req)); [|done|].
  - by rewrite (cmapM_csvLine_invalid _ Hx).
  - by rewrite (cmapM_jsonPwa_invalid _ Hx).
Qed.

(** X9.  A listing that the store rejects is answered with status 500
    and the error of the store as the body; that is the only response,
    and no writer is entered. *)
Theorem listing_failure_500 (req : Request) (err : JsVal) :
  single req = None →
  list_pwas (parse_skip req) (parse_limit req) (str_or (q_sort (query req)) "newest")
  = Rejects err →
  sent (answer req)
  = [{| sent_status := 500;
        sent_headers := {[ "Cache-Control" := "public, max-age=3600" ]};
        sent_body := body_json err |}]
  ∧ trace (answer req)
    = [EvList (parse_skip req) (parse_limit req) (str_or (q_sort (query req)) "newest");
       EvLog err]
  ∧ ∀ f, EvWrite f ∉ trace (answer req).
Proof.
  intros Hs Hl.
  rewrite (respond_list_rejected find list_pwas fromRequest view_engine today xml
             req err Hs Hl).
  repeat split. intros f Hin. cbn in Hin.
  apply elem_of_cons in Hin as [Hin | Hin]; [done|].
  by apply list_elem_of_singleton in Hin.
Qed.

(** X10.  A record asked for by its id is written as a listing of that
    one record is: for the CSV and the JSON format the response to
    [GET /:id] is the response to a listing that the store answers with
    just that record. *)
Theorem single_record_as_listing_of_one (one many : Request) (key : string) (p : Pwa) :
  single one = Some key → find key = Resolves p →
  got many {| pwas := [p] |} →
  format_of one = format_of many →
  dispatch (format_of one) ≠ FmtRss →
  sent (answer one) = sent (answer many).
Proof.
  intros Hs Hf Hg Hfmt Hd.
  assert (got one {| pwas := [p] |}) as Hg1.
  { unfold fetched. rewrite Hs. by exists p. }
  rewrite (respond_fetched one _ Hg1), (respond_fetched many _ Hg).
  rewrite !settle_write_fresh, <- Hfmt.
  by destruct (dispatch (format_of one)).
Qed.

(** The events of a writer and of the [catch] of the route hold no call
    to the record store. *)
Lemma settle_write_no_store_call (req : Request) (fmt : string) (result : ListResult)
    (s : State) :
  ∃ evs, trace (settle_write (write req fmt result s)) = trace s ++ evs
         ∧ List.filter is_store_call evs = [].
Proof.
  unfold write_result. destruct (dispatch fmt).
  - unfold CsvWriter_write. destruct (cmapM csvLine (pwas result)); cbn.
    + by eexists.
    + rewrite <- app_assoc. by eexists.
  - unfold RssWriter_write, detached, start, async. cbn [fst settle_write].
    rewrite await_asyncForEach.
    destruct (for_loop_no_store_call fromRequest view_engine req (pwas result)
                (new_RSS (record (EvWrite FmtRss) s))) as (evs & Ht & Hf).
    destruct (for_loop _ _ _) as [s' [[]|e|]]; cbn [fst snd] in *.
    + cbn. rewrite Ht. cbn. rewrite <- app_assoc. by eexists.
    + cbn. rewrite Ht. cbn. rewrite <- app_assoc. by eexists.
    + cbn. rewrite Ht. cbn. rewrite <- app_assoc. by eexists.
  - unfold JsonWriter_write. destruct (cmapM jsonPwa (pwas result)); cbn.
    + by eexists.
    + rewrite <- app_assoc. by eexists.
Qed.

(** X11.  Every request makes exactly one call to the record store, and
    makes it first: [find] with the id when the path has one, [list]
    with the parsed offset, limit and sort when it has none; a request
    by id never lists and a listing never looks a record up. *)
Theorem one_store_call (req : Request) :
  ∃ rest, trace (answer req) = store_event req :: rest
          ∧ List.filter is_store_call rest = []
          ∧ store_event req
            = match params_id req with
              | Some key =>
                  if String.eqb key "" then
                    EvList (parse_skip req) (parse_limit req)
                      (str_or (q_sort (query req)) "newest")
                  else EvFind key
              | None =>
                  EvList (parse_skip req) (parse_limit req)
                    (str_or (q_sort (query req)) "newest")
              end.
Proof.
  assert (∃ rest, trace (answer req) = store_event req :: rest
                  ∧ List.filter is_store_call rest = []) as (rest & Ht & Hf).
  { destruct (respond_rejected req) as [[result Hg] | (err & code & -> & _)].
    - rewrite (respond_fetched req result Hg).
      destruct (settle_write_no_store_call req (format_of req) result
                  (record (store_event req) prepared)) as (evs & -> & Hf).
      by exists evs.
    - by eexists. }
  exists rest. split; [exact Ht|]. split; [exact Hf|].
  unfold store_event, single. by destruct (params_id req) as [[|c k]|].
Qed.

(** X14.  A listing without records is answered all the same: the CSV
    is the header row alone, the JSON is the empty array, and the feed
    is serialised without items and without any render. *)
Theorem empty_listing (req : Request) :
  got req {| pwas := [] |} →
  sent (answer req)
  = [match dispatch (format_of req) with
     | FmtCsv =>
         {| sent_status := 200; sent_headers := ok_headers "text/csv";
            sent_body := body_csv [csv_header] |}
     | FmtJson =>
         {| sent_status := 200; sent_headers := ok_headers "application/json";
            sent_body := body_json (JArr []) |}
     | FmtRss =>
         {| sent_status := 200; sent_headers := ok_headers "application/rss+xml";
            sent_body := body_send (xml (new_feed today [])) |}
     end]
  ∧ rendered (answer req) = 0%nat.
Proof.
  intros Hg. rewrite (respond_fetched req _ Hg).
  unfold write_result. by destruct (dispatch (format_of req)).
Qed.

End Requests.

(* ================================================================== *)
(** * Dates and numerals as the route sees them                      *)
(* ================================================================== *)

Lemma date_string_length (t : Z) :
  String.length (JsDate.date_string t) = 10%nat
  ∨ String.length (JsDate.date_string t) = 13%nat.
Proof.
  unfold JsDate.date_string.
  rewrite !string_length_append, !fixed_digits_length, year_string_length.
  destruct (_ && _); cbn; auto.
Qed.

(** X15.  [getDate] throws a [RangeError] exactly on the timestamps
    further than 8.64e15 ms from the epoch; on every other timestamp it
    returns a text of 10 or 13 characters, all of them digits, hyphens
    or a sign: nothing of the time of day is left. *)
Theorem getDate_outcomes (t : Z) :
  (Z.abs t <= 8640000000000000
   ∧ ∃ s, getDate t = Normal s
          ∧ (String.length s = 10%nat ∨ String.length s = 13%nat)
          ∧ string_forall date_char s = true)
  ∨ (8640000000000000 < Z.abs t
     ∧ getDate t = Throw (JError "RangeError" "Invalid time value")).
Proof.
  destruct (Z_le_dec (Z.abs t) 8640000000000000) as [H|H]; [left | right].
  - split; [done|]. exists (JsDate.date_string t).
    split; [by apply getDate_valid|].
    split; [apply date_string_length | apply date_string_date_chars].
  - split; [lia|]. by apply getDate_invalid.
Qed.

(** X16.  The year, month and day that [getDate] prints are a date of
    the calendar: the month is one of the twelve, the day is between 1
    and the length of the month (29 days for February in a leap year),
    and the date is that of the UTC day of the timestamp. *)
Theorem getDate_calendar (t : Z) :
  Z.abs t <= 8640000000000000 →
  getDate t
  = Normal (JsDate.year_string (JsDate.YearFromTime t) +:+ "-"
              +:+ fixed_digits 2 (JsDate.MonthFromTime t + 1) +:+ "-"
              +:+ fixed_digits 2 (JsDate.DateFromTime t))
  ∧ 1 <= JsDate.MonthFromTime t + 1 <= 12
  ∧ 1 <= JsDate.DateFromTime t
       <= month_length (JsDate.MonthFromTime t)
            (if JsDate.DaysInYear (JsDate.YearFromTime t) =? 366 then 1 else 0)
  ∧ MakeDay (JsDate.YearFromTime t) (JsDate.MonthFromTime t) (JsDate.DateFromTime t)
    = t / 86400000.
Proof.
  intros Hv. destruct (calendar_date t) as (Hm & Hd & Hu & Hk).
  split; [by apply getDate_valid|]. split; [lia|]. split; [|exact Hk].
  split; [exact Hd | exact Hu].
Qed.

(** X17.  Day precision, both ways: two timestamps get the same text
    from [getDate] exactly when they fall on the same UTC day. *)
Theorem getDate_same_day (t1 t2 : Z) :
  Z.abs t1 <= 8640000000000000 → Z.abs t2 <= 8640000000000000 →
  getDate t1 = getDate t2 ↔ t1 / 86400000 = t2 / 86400000.
Proof.
  intros H1 H2. rewrite (getDate_valid t1 H1), (getDate_valid t2 H2).
  rewrite <- (date_string_same_day t1 t2 H1 H2).
  split; [by intros [= ->] | by intros ->].
Qed.

(** X19.  [parseInt] reads the leading integer and ignores what
    follows: an integer printed in decimal and followed by anything
    that does not start with a digit is parsed as the integer alone is,
    to the Number value of the integer, which up to 2^53 is the integer
    itself. *)
Theorem parseInt_ignores_the_rest (z : Z) (c : ascii) (r : string) :
  is_digit c = false →
  parseInt (Z_to_string z +:+ String c r) = parseInt (Z_to_string z)
  ∧ parseInt (Z_to_string z +:+ String c r) = to_Number (z <? 0) (Z.abs z)
  ∧ (Z.abs z < 2 ^ 53 → parseInt (Z_to_string z +:+ String c r) = Num z).
Proof.
  intros Hc. pose proof (parseInt_then z c r Hc) as E.
  split; [by rewrite E, parseInt_Z_to_string|]. split; [exact E|].
  intros Hz. by rewrite E, to_Number_small.
Qed.

(** X18.  A query-string [skip] or [limit] that is an integer printed
    in decimal reaches the listing call as the Number value of that
    integer, a negative one included, which up to 2^53 is the integer
    itself; only the limit 0 is replaced, by 100. *)
Theorem decimal_parameters_pass (req : Request) (z : Z) :
  (q_skip (query req) = Some (Z_to_string z) →
   parse_skip req = to_Number (z <? 0) (Z.abs z))
  ∧ (q_limit (query req) = Some (Z_to_string z) →
     parse_limit req = if z =? 0 then Num 100 else to_Number (z <? 0) (Z.abs z))
  ∧ (Z.abs z < 2 ^ 53 → to_Number (z <? 0) (Z.abs z) = Num z).
Proof.
  unfold parse_skip, parse_limit. split; [|split].
  - intros ->. cbn [ToString]. apply parseInt_Z_to_string.
  - intros ->. cbn [ToString]. rewrite parseInt_Z_to_string.
    destruct (Z.eqb_spec z 0) as [->|Hz]; [done|].
    apply num_or_to_Number. lia.
  - apply to_Number_small.
Qed.

(** Beyond 2^53 the integers are not all doubles, and a numeral of more
    than 309 digits is read as infinity. *)
Example parseInt_of_large :
  parseInt (Z_to_string (2 ^ 53 + 1)) = Num (2 ^ 53)
  ∧ parseInt (Z_to_string (- (2 ^ 53 + 3))) = Num (- (2 ^ 53 + 4))
  ∧ parseInt (Z_to_string (10 ^ 400)) = Infinity false
  ∧ parseInt (Z_to_string (2 ^ 1024 - 2 ^ 970 - 1)) = Num (2 ^ 1024 - 2 ^ 971)
  ∧ parseInt (Z_to_string (2 ^ 1024 - 2 ^ 970)) = Infinity false.
Proof. repeat split; vm_compute; reflexivity. Qed.

(* ================================================================== *)
(** * The further properties on sample requests                        *)
(* ================================================================== *)

Lemma csv_json_answered_once_witness :
  ∃ w, sent (respond Sample.find Sample.list_broken Sample.fromRequest
               Sample.engine Sample.today Sample.xml
               (Sample.listing (Some "csv") None None)) = [w]
       ∧ (sent_status w = 200 ∨ sent_status w = 404 ∨ sent_status w = 500).
Proof.
  destruct (csv_json_answered_once Sample.find Sample.list_broken Sample.fromRequest
              Sample.engine Sample.today Sample.xml
              (Sample.listing (Some "csv") None None))
    as (w & Hw & Hs & _); [discriminate|].
  exists w. split; [exact Hw | exact Hs].
Defined.

Lemma rss_answered_with_the_feed_witness :
  ∃ its, sent (respond Sample.find Sample.list_pwas Sample.fromRequest
                 Sample.engine Sample.today Sample.xml
                 (Sample.listing (Some "rss") None None))
         = [{| sent_status := 200;
               sent_headers := ok_headers "application/rss+xml";
               sent_body := body_send (Sample.xml (new_feed Sample.today its)) |}]
         ∧ List.length its = 2%nat.
Proof.
  destruct (rss_answered_with_the_feed Sample.find Sample.list_pwas Sample.fromRequest
              Sample.engine Sample.today Sample.xml
              (Sample.listing (Some "rss") None None)
              {| pwas := [Sample.foo; Sample.bar] |})
    as (its & Hs & _ & Hl); [reflexivity | reflexivity | |].
  - repeat constructor.
  - exists its. split; [exact Hs | exact Hl].
Defined.

Lemma csv_json_answered_with_the_records_witness :
  sent (respond Sample.find Sample.list_pwas Sample.fromRequest
          Sample.engine Sample.today Sample.xml
          (Sample.listing (Some "csv") None None))
  = [{| sent_status := 200; sent_headers := ok_headers "text/csv";
        sent_body := body_csv (csv_header :: (csv_row <$> [Sample.foo; Sample.bar])) |}].
Proof.
  apply (csv_json_answered_with_the_records Sample.find Sample.list_pwas
           Sample.fromRequest Sample.engine Sample.today Sample.xml
           (Sample.listing (Some "csv") None None)
           {| pwas := [Sample.foo; Sample.bar] |});
    [reflexivity | exact sample_dates_valid | reflexivity].
Defined.

Lemma sample_broken_invalid : Exists (λ p, ¬ valid_dates p) [Sample.foo; Sample.broken].
Proof.
  apply Exists_cons_tl, Exists_cons_hd. intros [_ H].
  unfold valid_date in H. cbn in H. lia.
Defined.

Lemma invalid_date_answered_500_witness :
  sent (respond Sample.find Sample.list_broken Sample.fromRequest
          Sample.engine Sample.today Sample.xml
          (Sample.listing None None None))
  = [{| sent_status := 500;
        sent_headers := {[ "Cache-Control" := "public, max-age=3600" ]};
        sent_body := body_json (JError "RangeError" "Invalid time value") |}].
Proof.
  apply (invalid_date_answered_500 Sample.find Sample.list_broken Sample.fromRequest
           Sample.engine Sample.today Sample.xml
           (Sample.listing None None None)
           {| pwas := [Sample.foo; Sample.broken] |});
    [reflexivity | discriminate | exact sample_broken_invalid].
Defined.

Lemma listing_failure_500_witness :
  sent_status <$> sent (respond Sample.find Sample.list_down Sample.fromRequest
                          Sample.engine Sample.today Sample.xml
                          (Sample.listing (Some "rss") None None))
  = [500].
Proof.
  destruct (listing_failure_500 Sample.find Sample.list_down Sample.fromRequest
              Sample.engine Sample.today Sample.xml
              (Sample.listing (Some "rss") None None)
              (JError "Error" "store unavailable"))
    as (Hs & _); [reflexivity | reflexivity |].
  rewrite Hs. reflexivity.
Defined.

Lemma single_record_as_listing_of_one_witness :
  sent (respond Sample.find Sample.list_one Sample.fromRequest
          Sample.engine Sample.today Sample.xml (Sample.one "a" None))
  = sent (respond Sample.find Sample.list_one Sample.fromRequest
            Sample.engine Sample.today Sample.xml (Sample.listing None None None)).
Proof.
  apply (single_record_as_listing_of_one Sample.find Sample.list_one
           Sample.fromRequest Sample.engine Sample.today Sample.xml
           (Sample.one "a" None) (Sample.listing None None None) "a" Sample.foo);
    [reflexivity | reflexivity | reflexivity | reflexivity | discriminate].
Defined.


Lemma loop_takes_the_sum_witness :
  due (asyncForEach [Sample.foo; Sample.bar]
         (add_item Sample.fromRequest Sample.engine
            (Sample.listing (Some "rss") None None)) initial).2
  = 9%nat
  ∧ now (asyncForEach [Sample.foo; Sample.bar]
           (add_item Sample.fromRequest Sample.engine
              (Sample.listing (Some "rss") None None)) initial).1
    = 0%nat.
Proof.
  destruct (loop_takes_the_sum Sample.fromRequest Sample.engine
              (Sample.listing (Some "rss") None None)
              (λ p, if String.eqb (id p) "a" then 7%nat else 2%nat)
              [Sample.foo; Sample.bar] initial)
    as (_ & Hd & Hn & _).
  - repeat constructor.
  - split; [exact Hd | exact Hn].
Defined.

Lemma empty_listing_witness :
  sent_body <$> sent (respond Sample.find Sample.list_empty Sample.fromRequest
                        Sample.engine Sample.today Sample.xml
                        (Sample.listing (Some "csv") None None))
  = [body_csv [csv_header]].
Proof.
  destruct (empty_listing Sample.find Sample.list_empty Sample.fromRequest
              Sample.engine Sample.today Sample.xml
              (Sample.listing (Some "csv") None None))
    as [Hs _]; [reflexivity|].
  rewrite Hs. reflexivity.
Defined.

Lemma getDate_calendar_witness :
  getDate 951782400000 = Normal "2000-02-29"
  ∧ MakeDay 2000 1 29 = 951782400000 / 86400000.
Proof.
  destruct (getDate_calendar 951782400000) as (Hg & _ & _ & Hk); [cbn; lia|].
  split; [exact Hg | exact Hk].
Defined.

Lemma getDate_same_day_witness :
  getDate 1577959200000 = getDate 1577923200000.
Proof.
  apply (getDate_same_day 1577959200000 1577923200000); [cbn; lia | cbn; lia |].
  reflexivity.
Defined.

Lemma parseInt_ignores_the_rest_witness :
  parseInt (Z_to_string 12 +:+ "abc") = Num 12.
Proof.
  destruct (parseInt_ignores_the_rest 12 "a" "bc") as (_ & _ & H); [reflexivity|].
  apply H. reflexivity.
Defined.
